(** * Chat server (server/server.js): sessions, rooms and addressed emissions

    A shallow embedding of the Socket.io event handlers of [server.js]:
    the two in-memory stores [users] and [rooms], the seven handlers
    registered per connection, and the effects each handler has on the
    transport (subscriptions and addressed emissions), recorded in program
    order.  Payloads have the types of the protocol: user names, room
    names, message texts and connection-ids are strings.  [console.log]
    calls are not modelled. *)

From Stdlib Require Import List String Ascii Bool Arith Lia.
Import ListNotations.
Open Scope string_scope.
Open Scope list_scope.

(** ** JavaScript [Map] and [Set] with string keys

    Both iterate in insertion order, and the server sends the results of
    [Array.from] over them to clients, so they are kept as lists in
    insertion order. *)

Module JsMap.
Section WithValue.
Context {V : Type}.

Fixpoint get (k : string) (m : list (string * V)) : option V :=
  match m with
  | [] => None
  | (k', v) :: m' => if k =? k' then Some v else get k m'
  end.

Definition has (k : string) (m : list (string * V)) : bool :=
  match get k m with Some _ => true | None => false end.

(** [m.set(k, v)]: an existing key keeps its position, a new key goes last. *)
Fixpoint set (k : string) (v : V) (m : list (string * V)) : list (string * V) :=
  match m with
  | [] => [(k, v)]
  | (k', v') :: m' => if k =? k' then (k, v) :: m' else (k', v') :: set k v m'
  end.

Definition delete (k : string) (m : list (string * V)) : list (string * V) :=
  filter (fun kv => negb (k =? fst kv)) m.

(** Mutation of the object stored under [k], through the reference that
    [m.get(k)] returns; nothing happens when the key is absent. *)
Fixpoint alter (f : V -> V) (k : string) (m : list (string * V)) : list (string * V) :=
  match m with
  | [] => []
  | (k', v) :: m' => if k =? k' then (k', f v) :: m' else (k', v) :: alter f k m'
  end.

Definition keys (m : list (string * V)) : list string := map fst m.
Definition values (m : list (string * V)) : list V := map snd m.
Definition entries (m : list (string * V)) : list (string * V) := m.
End WithValue.
End JsMap.

Module JsSet.
Definition has (x : string) (s : list string) : bool := existsb (String.eqb x) s.

Definition add (x : string) (s : list string) : list string :=
  if has x s then s else s ++ [x].

Definition delete (x : string) (s : list string) : list string :=
  filter (fun y => negb (x =? y)) s.
End JsSet.

(** ** The stores *)

Definition SocketId := string.

(** Values of [users]: [{ username, currentRoom }]. *)
Record User := mkUser { username : string; currentRoom : string }.

(** Values of [rooms]: [{ name, users: Set<socketId> }]. *)
Record Room := mkRoom { room_name : string; room_users : list SocketId }.

Record State := mkState {
  users : list (SocketId * User);
  rooms : list (string * Room)
}.

Definition DEFAULT_ROOM : string := "general".

(** The stores after the module has been loaded (lines 28-33). *)
Definition init : State :=
  mkState [] [(DEFAULT_ROOM, mkRoom "General Chat" [])].

(** ** What the handlers send *)

(** The object passed to ['receive_message']; a key the handler does not
    write is [None]. *)
Record Message := mkMessage {
  sender : string;
  message : string;
  timestamp : string;
  room : option string;
  isPrivate : option bool;
  receiver : option string
}.

Inductive payload : Type :=
| error_message (text : string)
| user_joined (socketId : SocketId) (name : string) (current : string)
| online_users (l : list (SocketId * string * string))
| available_rooms (l : list string)
| receive_message (m : Message)
| room_users_update (r : string) (names : list string)
| room_changed (r : string)
| typing_status (name : string) (isTyping : bool) (r : string)
| user_disconnected (socketId : SocketId).

(** The four ways a handler addresses an emission. *)
Inductive target : Type :=
| ToSocket (id : SocketId)              (* socket.emit *)
| ToAll                                 (* io.emit *)
| ToRoom (label : string)               (* io.to(label).emit *)
| ToRoomExcept (label : string) (id : SocketId).  (* socket.to(label).emit *)

Inductive effect : Type :=
| SockJoin (id : SocketId) (label : string)    (* socket.join(label) *)
| SockLeave (id : SocketId) (label : string)   (* socket.leave(label) *)
| Emit (t : target) (p : payload).

(** Who an addressed emission reaches, given the transport's subscription
    table [subscribed c label] (connection [c] is in transport room
    [label]), whatever that table is. *)
Section Transport.
Variable subscribed : SocketId -> string -> bool.

Definition delivered (t : target) (c : SocketId) : bool :=
  match t with
  | ToSocket id => c =? id
  | ToAll => true
  | ToRoom label => subscribed c label
  | ToRoomExcept label id => subscribed c label && negb (c =? id)
  end.
End Transport.

(** ** Handlers as stateful computations

    A handler reads and writes the stores, appends effects, and stops at
    the first [TypeError] (a property read on [undefined]); what it did
    before the error stays done. *)

Definition M (A : Type) : Type := State -> option A * State * list effect.

Definition ret {A} (a : A) : M A := fun s => (Some a, s, []).

Definition bind {A B} (m : M A) (f : A -> M B) : M B :=
  fun s =>
    match m s with
    | (Some a, s1, out1) =>
        match f a s1 with
        | (r, s2, out2) => (r, s2, out1 ++ out2)
        end
    | (None, s1, out1) => (None, s1, out1)
    end.

Notation "x <- c1 ;; c2" := (bind c1 (fun x => c2))
  (at level 61, c1 at next level, right associativity).
Notation "c1 ;; c2" := (bind c1 (fun _ => c2))
  (at level 61, right associativity).

Definition read : M State := fun s => (Some s, s, []).
Definition write_users (u : list (SocketId * User)) : M unit :=
  fun s => (Some tt, mkState u (rooms s), []).
Definition write_rooms (r : list (string * Room)) : M unit :=
  fun s => (Some tt, mkState (users s) r, []).
Definition perform (e : effect) : M unit := fun s => (Some tt, s, [e]).
Definition throw {A} : M A := fun s => (None, s, []).
Definition skip : M unit := ret tt.

Definition emit (t : target) (p : payload) : M unit := perform (Emit t p).

(** [rooms.get(r).users] where the source reads it without [?.]. *)
Definition room_users_of (r : string) : M (list SocketId) :=
  s <- read ;;
  match JsMap.get r (rooms s) with
  | Some rm => ret (room_users rm)
  | None => throw
  end.

(** [Array.from(ids).map(id => users.get(id)?.username).filter(Boolean)] *)
Definition usernames_of (us : list (SocketId * User)) (ids : list SocketId) : list string :=
  filter (fun n => negb (n =? ""))
    (flat_map (fun id => match JsMap.get id us with
                         | Some u => [username u]
                         | None => []
                         end) ids).

Definition add_user (id : SocketId) (rm : Room) : Room :=
  mkRoom (room_name rm) (JsSet.add id (room_users rm)).
Definition delete_user (id : SocketId) (rm : Room) : Room :=
  mkRoom (room_name rm) (JsSet.delete id (room_users rm)).
Definition set_currentRoom (r : string) (u : User) : User :=
  mkUser (username u) r.

Definition system_message (text time r : string) : Message :=
  mkMessage "System" text time (Some r) None None.

(** The template strings of lines 77, 111 (and 230), 134 and 176. *)
Definition welcome_text (name : string) : string :=
  "Welcome, " ++ name ++ "! You are in the '" ++ DEFAULT_ROOM ++ "' room.".
Definition left_text (name : string) : string := name ++ " has left the room.".
Definition joined_text (name : string) : string := name ++ " has joined the room.".
Definition offline_text (receiverSocketId : string) : string :=
  "User with ID " ++ receiverSocketId ++ " is not online.".

(** [Array.from(rooms.get(r)?.users || new Set())] mapped to user names
    (line 107): the names of the occupants of [r], none for a missing room. *)
Definition occupant_names (s : State) (r : string) : list string :=
  usernames_of (users s)
    match JsMap.get r (rooms s) with
    | Some rm => room_users rm
    | None => []
    end.

(** [clk n] is what [new Date().toISOString()] gives at the n-th place
    (in source order) where the handler reads the clock. *)
Definition Clock := nat -> string.

Section Handlers.
Variable id : SocketId.   (* socket.id *)
Variable clk : Clock.

(* lines 42-88 *)
Definition join_chat (name : string) : M unit :=
  if name =? "" then
    emit (ToSocket id) (error_message "Username cannot be empty.")
  else
    s <- read ;;
    match find (fun u => username u =? name) (JsMap.values (users s)) with
    | Some _ =>
        emit (ToSocket id)
          (error_message "Username already taken. Please choose another.")
    | None =>
        write_users (JsMap.set id (mkUser name DEFAULT_ROOM) (users s)) ;;
        perform (SockJoin id DEFAULT_ROOM) ;;
        emit ToAll (user_joined id name DEFAULT_ROOM) ;;
        s <- read ;;
        emit (ToSocket id)
          (online_users
             (map (fun e => (fst e, username (snd e), currentRoom (snd e)))
                (JsMap.entries (users s)))) ;;
        emit (ToSocket id) (available_rooms (JsMap.keys (rooms s))) ;;
        emit (ToSocket id)
          (receive_message
             (system_message (welcome_text name) (clk 0) DEFAULT_ROOM)) ;;
        _ <- room_users_of DEFAULT_ROOM ;;
        s <- read ;;
        write_rooms (JsMap.alter (add_user id) DEFAULT_ROOM (rooms s)) ;;
        ids <- room_users_of DEFAULT_ROOM ;;
        s <- read ;;
        emit (ToRoom DEFAULT_ROOM)
          (room_users_update DEFAULT_ROOM (usernames_of (users s) ids))
    end.

(* lines 93-141 *)
Definition join_room (roomName : string) : M unit :=
  s <- read ;;
  match JsMap.get id (users s) with
  | None => emit (ToSocket id) (error_message "Please set your username first.")
  | Some user =>
      (if currentRoom user =? "" then skip
       else
         perform (SockLeave id (currentRoom user)) ;;
         write_rooms (JsMap.alter (delete_user id) (currentRoom user) (rooms s)) ;;
         s <- read ;;
         emit (ToRoom (currentRoom user))
           (room_users_update (currentRoom user)
              (occupant_names s (currentRoom user))) ;;
         emit (ToRoom (currentRoom user))
           (receive_message
              (system_message (left_text (username user))
                 (clk 0) (currentRoom user)))) ;;
      s <- read ;;
      (if JsMap.has roomName (rooms s) then skip
       else
         write_rooms (JsMap.set roomName (mkRoom roomName []) (rooms s)) ;;
         s <- read ;;
         emit ToAll (available_rooms (JsMap.keys (rooms s)))) ;;
      perform (SockJoin id roomName) ;;
      s <- read ;;
      write_users (JsMap.alter (set_currentRoom roomName) id (users s)) ;;
      _ <- room_users_of roomName ;;
      s <- read ;;
      write_rooms (JsMap.alter (add_user id) roomName (rooms s)) ;;
      ids <- room_users_of roomName ;;
      s <- read ;;
      emit (ToRoom roomName)
        (room_users_update roomName (usernames_of (users s) ids)) ;;
      emit (ToRoom roomName)
        (receive_message
           (system_message (joined_text (username user))
              (clk 1) roomName)) ;;
      emit (ToSocket id) (room_changed roomName)
  end.

(* lines 146-162; [text] is [data.message] *)
Definition send_message (text : string) : M unit :=
  s <- read ;;
  match JsMap.get id (users s) with
  | None => emit (ToSocket id) (error_message "Please set your username first.")
  | Some user =>
      emit (ToRoom (currentRoom user))
        (receive_message
           (mkMessage (username user) text (clk 0)
              (Some (currentRoom user)) None None))
  end.

(* lines 165-193; the payload is [{ receiverSocketId, message }] *)
Definition send_private_message (receiverSocketId : SocketId) (text : string) : M unit :=
  s <- read ;;
  match JsMap.get id (users s) with
  | None => emit (ToSocket id) (error_message "Please set your username first.")
  | Some senderUser =>
      match JsMap.get receiverSocketId (users s) with
      | None =>
          emit (ToSocket id)
            (error_message (offline_text receiverSocketId))
      | Some receiverUser =>
          let messageData :=
            mkMessage (username senderUser) text (clk 0) None (Some true)
              (Some (username receiverUser)) in
          emit (ToSocket id) (receive_message messageData) ;;
          emit (ToRoom receiverSocketId) (receive_message messageData)
      end
  end.

(* lines 198-213 *)
Definition typing (isTyping : bool) (r : string) : M unit :=
  s <- read ;;
  match JsMap.get id (users s) with
  | Some user => emit (ToRoomExcept r id) (typing_status (username user) isTyping r)
  | None => skip
  end.

Definition typing_start (r : string) : M unit := typing true r.
Definition typing_stop (r : string) : M unit := typing false r.

(* lines 217-240 *)
Definition disconnect : M unit :=
  s <- read ;;
  match JsMap.get id (users s) with
  | Some user =>
      (if negb (currentRoom user =? "") && JsMap.has (currentRoom user) (rooms s) then
         write_rooms (JsMap.alter (delete_user id) (currentRoom user) (rooms s)) ;;
         ids <- room_users_of (currentRoom user) ;;
         s <- read ;;
         emit (ToRoom (currentRoom user))
           (room_users_update (currentRoom user) (usernames_of (users s) ids)) ;;
         emit (ToRoom (currentRoom user))
           (receive_message
              (system_message (left_text (username user))
                 (clk 0) (currentRoom user)))
       else skip) ;;
      s <- read ;;
      write_users (JsMap.delete id (users s)) ;;
      emit ToAll (user_disconnected id)
  | None => skip
  end.
End Handlers.

(** ** The server as a transition system *)

Inductive inbound : Type :=
| JoinChat (name : string)
| JoinRoom (roomName : string)
| SendMessage (text : string)
| SendPrivateMessage (receiverSocketId : SocketId) (text : string)
| TypingStart (r : string)
| TypingStop (r : string)
| Disconnect.

Definition handler (id : SocketId) (clk : Clock) (ev : inbound) : M unit :=
  match ev with
  | JoinChat name => join_chat id clk name
  | JoinRoom r => join_room id clk r
  | SendMessage text => send_message id clk text
  | SendPrivateMessage to text => send_private_message id clk to text
  | TypingStart r => typing_start id r
  | TypingStop r => typing_stop id r
  | Disconnect => disconnect id clk
  end.

(** One handler run to completion. *)
Definition state_after {A} (m : M A) (s : State) : State := snd (fst (m s)).
Definition effects_of {A} (m : M A) (s : State) : list effect := snd (m s).
Definition threw {A} (m : M A) (s : State) : bool :=
  match fst (fst (m s)) with Some _ => false | None => true end.

Definition step (s : State) (e : SocketId * Clock * inbound) : State :=
  match e with (id, clk, ev) => state_after (handler id clk ev) s end.

Definition run (trace : list (SocketId * Clock * inbound)) (s : State) : State :=
  fold_left step trace s.

Inductive reachable : State -> Prop :=
| reach_init : reachable init
| reach_step s id clk ev :
    reachable s -> reachable (state_after (handler id clk ev) s).

(** ** Derived notions used in the statements *)

(** Line 49: [Array.from(users.values()).find(...)] finds a user. *)
Definition name_taken (name : string) (s : State) : bool :=
  match find (fun u => username u =? name) (JsMap.values (users s)) with
  | Some _ => true
  | None => false
  end.

(** The texts of the error replies (lines 44, 51, 96 with 149 and 168, 176). *)
Definition EmptyName : string := "Username cannot be empty.".
Definition NameTaken : string := "Username already taken. Please choose another.".
Definition NotRegistered : string := "Please set your username first.".
Definition RecipientOffline (receiverSocketId : string) : string :=
  offline_text receiverSocketId.

(** The stores and the effects of a [join_chat] that goes through. *)
Definition joined_chat (id : SocketId) (name : string) (s : State) : State :=
  mkState (JsMap.set id (mkUser name DEFAULT_ROOM) (users s))
          (JsMap.alter (add_user id) DEFAULT_ROOM (rooms s)).

(** Lines 56-80: what [join_chat] does between storing the session and
    touching the default room. *)
Definition join_chat_effects (id : SocketId) (clk : Clock) (name : string) (s : State)
  : list effect :=
  let us := JsMap.set id (mkUser name DEFAULT_ROOM) (users s) in
  [ SockJoin id DEFAULT_ROOM;
    Emit ToAll (user_joined id name DEFAULT_ROOM);
    Emit (ToSocket id)
      (online_users (map (fun e => (fst e, username (snd e), currentRoom (snd e))) us));
    Emit (ToSocket id) (available_rooms (JsMap.keys (rooms s)));
    Emit (ToSocket id)
      (receive_message (system_message (welcome_text name) (clk 0) DEFAULT_ROOM)) ].

(** The three mutations of [join_room], in the order of the source:
    leaving (lines 101-103), creating (118-119), entering (124-125). *)
Definition left_room (id : SocketId) (cur : string) (s : State) : State :=
  mkState (users s) (JsMap.alter (delete_user id) cur (rooms s)).

Definition ensured_room (r : string) (s : State) : State :=
  if JsMap.has r (rooms s) then s
  else mkState (users s) (JsMap.set r (mkRoom r []) (rooms s)).

Definition entered_room (id : SocketId) (r : string) (s : State) : State :=
  mkState (JsMap.alter (set_currentRoom r) id (users s))
          (JsMap.alter (add_user id) r (rooms s)).

(** Lines 102-114, 120 and 123-139: the effects that go with them. *)
Definition leave_effects (id : SocketId) (time : string) (user : User) (s1 : State)
  : list effect :=
  [ SockLeave id (currentRoom user);
    Emit (ToRoom (currentRoom user))
      (room_users_update (currentRoom user) (occupant_names s1 (currentRoom user)));
    Emit (ToRoom (currentRoom user))
      (receive_message
         (system_message (left_text (username user)) time (currentRoom user))) ].

Definition create_effects (r : string) (s1 s2 : State) : list effect :=
  if JsMap.has r (rooms s1) then []
  else [Emit ToAll (available_rooms (JsMap.keys (rooms s2)))].

Definition enter_effects (id : SocketId) (time : string) (user : User) (r : string)
  (s3 : State) : list effect :=
  [ SockJoin id r;
    Emit (ToRoom r) (room_users_update r (occupant_names s3 r));
    Emit (ToRoom r)
      (receive_message (system_message (joined_text (username user)) time r));
    Emit (ToSocket id) (room_changed r) ].

(** Lines 180-186. *)
Definition private_message (senderUser receiverUser : User) (text time : string)
  : Message :=
  mkMessage (username senderUser) text time None (Some true)
    (Some (username receiverUser)).

(** Line 222: the room is left only when [currentRoom] is truthy and the
    room exists. *)
Definition leaves_on_disconnect (user : User) (s : State) : bool :=
  negb (currentRoom user =? "") && JsMap.has (currentRoom user) (rooms s).

Definition names_of (m : list (SocketId * User)) : list string :=
  map username (JsMap.values m).

Definition user_names (s : State) : list string := names_of (users s).

Record wf (s : State) : Prop := {
  wf_default : JsMap.has DEFAULT_ROOM (rooms s) = true;
  wf_nonempty : ~ In "" (user_names s);
  wf_distinct : NoDup (user_names s)
}.

(** The guards under which a handler rejects an event, with the text it
    replies (lines 43, 50, 95, 148, 167, 175). *)
Inductive rejects (id : SocketId) (s : State) : inbound -> string -> Prop :=
| rej_empty_name :
    rejects id s (JoinChat "") EmptyName
| rej_name_taken name :
    name <> "" -> name_taken name s = true ->
    rejects id s (JoinChat name) NameTaken
| rej_join_room r :
    JsMap.get id (users s) = None ->
    rejects id s (JoinRoom r) NotRegistered
| rej_send_message text :
    JsMap.get id (users s) = None ->
    rejects id s (SendMessage text) NotRegistered
| rej_send_private to text :
    JsMap.get id (users s) = None ->
    rejects id s (SendPrivateMessage to text) NotRegistered
| rej_offline to text senderUser :
    JsMap.get id (users s) = Some senderUser ->
    JsMap.get to (users s) = None ->
    rejects id s (SendPrivateMessage to text) (RecipientOffline to).

Definition is_error (e : effect) : bool :=
  match e with Emit _ (error_message _) => true | _ => false end.


(** A name as the specification calls it blank: nothing is left of it once
    leading and trailing white space is trimmed, that is, it consists of
    white space only. *)
Definition is_space (c : ascii) : bool :=
  let n := nat_of_ascii c in
  (n =? 32)%nat || ((9 <=? n)%nat && (n <=? 13)%nat).

Fixpoint blank_after_trim (name : string) : bool :=
  match name with
  | EmptyString => true
  | String c rest => is_space c && blank_after_trim rest
  end.

(** Which connections an effect reaches under a subscription table. *)
Definition reaches (subscribed : SocketId -> string -> bool) (e : effect) (c : SocketId)
  : bool :=
  match e with
  | Emit t _ => delivered subscribed t c
  | _ => false
  end.

Definition registered (id : SocketId) (name : string) (s : State) : bool :=
  match JsMap.get id (users s) with
  | Some u => (username u =? name) && (currentRoom u =? DEFAULT_ROOM)
  | None => false
  end.

(** A [join_chat] call succeeds: it runs to its end, replies no error and
    leaves a session for the caller under the requested name. *)
Definition join_chat_succeeds (id : SocketId) (clk : Clock) (name : string) (s : State)
  : bool :=
  negb (threw (join_chat id clk name) s) &&
  negb (existsb is_error (effects_of (join_chat id clk name) s)) &&
  registered id name (state_after (join_chat id clk name) s).

Fixpoint all_succeed (calls : list (SocketId * Clock * string)) (s : State) : bool :=
  match calls with
  | [] => true
  | (id, clk, name) :: rest =>
      join_chat_succeeds id clk name s &&
      all_succeed rest (state_after (join_chat id clk name) s)
  end.

Definition call_names (calls : list (SocketId * Clock * string)) : list string :=
  map snd calls.

Definition run_join_chats (calls : list (SocketId * Clock * string)) (s : State) : State :=
  run (map (fun c => (fst (fst c), snd (fst c), JoinChat (snd c))) calls) s.

Definition t0 : Clock := fun _ => "t".

(** The connection occupies no room other than [cur]. *)
Definition only_in (id : SocketId) (cur : string) (rms : list (string * Room)) : bool :=
  forallb (fun kv => implb (JsSet.has id (room_users (snd kv))) (fst kv =? cur)) rms.

Definition occupies_none (id : SocketId) (s : State) : Prop :=
  forall r rm, JsMap.get r (rooms s) = Some rm -> JsSet.has id (room_users rm) = false.

Definition occupant (rms : list (string * Room)) (id : SocketId) (r : string) : Prop :=
  exists rm, JsMap.get r rms = Some rm /\ In id (room_users rm).

Definition session (us : list (SocketId * User)) (id : SocketId) (r : string) : Prop :=
  exists u, JsMap.get id us = Some u /\ currentRoom u = r.

(** The invariant of the data model: a connection-id is in a room's
    occupant set exactly when it has a session whose [currentRoom] is that
    room. *)
Definition occupancy_consistent (s : State) : Prop :=
  forall id r, occupant (rooms s) id r <-> session (users s) id r.

(** What a client that follows the protocol sends: [join_chat] only while
    it has no session, and no [join_room] for the room named by the empty
    string. *)
Definition event_ok (s : State) (id : SocketId) (ev : inbound) : bool :=
  match ev with
  | JoinChat _ => negb (JsMap.has id (users s))
  | JoinRoom r => negb (r =? "")
  | _ => true
  end.

Fixpoint disciplined (trace : list (SocketId * Clock * inbound)) (s : State) : bool :=
  match trace with
  | [] => true
  | (id, clk, ev) :: rest =>
      event_ok s id ev && disciplined rest (step s (id, clk, ev))
  end.

Record consistent (s : State) : Prop := {
  cons_occupancy : occupancy_consistent s;
  cons_room_set : forall id u, JsMap.get id (users s) = Some u -> currentRoom u <> "";
  cons_default : JsMap.has DEFAULT_ROOM (rooms s) = true
}.

(** ** Transport subscriptions

    What [socket.join] and [socket.leave] do to the transport's
    subscription table: the connection is put into, or taken out of, the
    room with that label. *)

Definition apply_effect (e : effect) (tbl : SocketId -> string -> bool)
  : SocketId -> string -> bool :=
  match e with
  | SockJoin id label => fun c r => (c =? id) && (r =? label) || tbl c r
  | SockLeave id label => fun c r => negb ((c =? id) && (r =? label)) && tbl c r
  | Emit _ _ => tbl
  end.

Definition apply_effects (effs : list effect) (tbl : SocketId -> string -> bool)
  : SocketId -> string -> bool :=
  fold_left (fun t e => apply_effect e t) effs tbl.

(** What reaches connection [c] of a handler's emissions, in order.  The
    handler's effects happen one after the other: an emission is delivered
    by the subscription table as the [socket.join] and [socket.leave]
    calls before it have left it. *)
Fixpoint deliveries (subscribed : SocketId -> string -> bool) (c : SocketId)
  (effs : list effect) : list payload :=
  match effs with
  | [] => []
  | e :: rest =>
      match e with
      | Emit t p => if delivered subscribed t c then [p] else []
      | _ => []
      end ++ deliveries (apply_effect e subscribed) c rest
  end.

(** The subscription table of the transport when nothing has been joined
    yet: every connection is in the room labelled with its own id, which is
    what line 191 addresses. *)
Definition own_rooms : SocketId -> string -> bool := fun c label => c =? label.

(** The subscription table after a trace: each handler's [socket.join] and
    [socket.leave] calls in turn; a connection that disconnects is taken
    out of every room by the transport itself. *)
Fixpoint run_subscriptions (trace : list (SocketId * Clock * inbound)) (s : State)
  (tbl : SocketId -> string -> bool) : SocketId -> string -> bool :=
  match trace with
  | [] => tbl
  | (id, clk, ev) :: rest =>
      let tbl1 := apply_effects (effects_of (handler id clk ev) s) tbl in
      run_subscriptions rest (step s (id, clk, ev))
        match ev with
        | Disconnect => fun c label => negb (c =? id) && tbl1 c label
        | _ => tbl1
        end
  end.

(** ** The client (client/src/socket/socket.js)

    The state of the [App] component and what its socket listeners and
    handlers do to it.  Rendering, [alert] and [console.log] are not
    modelled, nor are the form handlers of lines 123-178. *)

Module Client.

(** An entry of [onlineUsers]: [{ socketId, username, currentRoom }]. *)
Definition OnlineUser : Type := SocketId * string * string.
Definition socketId_of (u : OnlineUser) : SocketId := fst (fst u).
Definition username_of (u : OnlineUser) : string := snd (fst u).
Definition currentRoom_of (u : OnlineUser) : string := snd u.

(** The [useState] cells of lines 12-20.  Of [typingUsers], an object
    keyed by user name, only the lookups are kept. *)
Record App := mkApp {
  username : string;
  isLoggedIn : bool;
  message : string;
  messages : list Message;
  onlineUsers : list OnlineUser;
  currentRoom : string;
  availableRooms : list string;
  typingUsers : string -> option bool;
  privateChatTarget : option OnlineUser
}.

Definition initial : App :=
  mkApp "" false "" [] [] "general" ["general"] (fun _ => None) None.

Definition set_messages (f : list Message -> list Message) (st : App) : App :=
  mkApp (username st) (isLoggedIn st) (message st) (f (messages st)) (onlineUsers st)
    (currentRoom st) (availableRooms st) (typingUsers st) (privateChatTarget st).

Definition set_onlineUsers (f : list OnlineUser -> list OnlineUser) (st : App) : App :=
  mkApp (username st) (isLoggedIn st) (message st) (messages st) (f (onlineUsers st))
    (currentRoom st) (availableRooms st) (typingUsers st) (privateChatTarget st).

Definition joined_chat_text (name : string) : string := name ++ " has joined the chat.".
Definition disconnected_text (name : string) : string := name ++ " has disconnected.".

(** The listeners of lines 31-106.  [captured] is the [onlineUsers] the
    listeners closed over when they were registered (line 63 reads it, not
    the state being updated); [clk 0] is the client's clock. *)
Definition listen (captured : list OnlineUser) (clk : Clock) (p : payload) (st : App)
  : App :=
  match p with
  | receive_message data => set_messages (fun prev => prev ++ [data]) st
  | online_users us => set_onlineUsers (fun _ => us) st
  | user_joined sid name cur =>
      set_messages
        (fun prev => prev ++ [mkMessage "System" (joined_chat_text name) (clk 0)
                                (Some cur) None None])
        (set_onlineUsers
           (fun prev => if existsb (fun u => socketId_of u =? sid) prev then prev
                        else prev ++ [(sid, name, cur)]) st)
  | user_disconnected sid =>
      let st1 := set_onlineUsers
                   (filter (fun u => negb (socketId_of u =? sid))) st in
      match find (fun u => socketId_of u =? sid) captured with
      | Some disconnectedUser =>
          set_messages
            (fun prev => prev ++ [mkMessage "System"
                                    (disconnected_text (username_of disconnectedUser))
                                    (clk 0) (Some (currentRoom_of disconnectedUser))
                                    None None]) st1
      | None => st1
      end
  | typing_status name isTyping _ =>
      mkApp (username st) (isLoggedIn st) (message st) (messages st) (onlineUsers st)
        (currentRoom st) (availableRooms st)
        (fun k => if k =? name then Some isTyping else typingUsers st k)
        (privateChatTarget st)
  | available_rooms rs =>
      mkApp (username st) (isLoggedIn st) (message st) (messages st) (onlineUsers st)
        (currentRoom st) rs (typingUsers st) (privateChatTarget st)
  | room_changed newRoom =>
      mkApp (username st) (isLoggedIn st) (message st) [] (onlineUsers st)
        newRoom (availableRooms st) (fun _ => None) None
  | error_message _ => st
  | room_users_update _ _ => st
  end.

Definition listen_all (captured : list OnlineUser) (clk : Clock) (ps : list payload)
  (st : App) : App :=
  fold_left (fun st p => listen captured clk p st) ps st.

Definition truthy (b : option bool) : bool :=
  match b with Some true => true | _ => false end.

Definition is_string (o : option string) (x : string) : bool :=
  match o with Some y => y =? x | None => false end.

(** Lines 181-192. *)
Definition getFilteredMessages (st : App) : list Message :=
  match privateChatTarget st with
  | Some target =>
      filter (fun msg =>
                truthy (isPrivate msg) &&
                (((sender msg =? username st) && is_string (receiver msg) (username_of target))
                 || ((sender msg =? username_of target) && is_string (receiver msg) (username st))))
        (messages st)
  | None =>
      filter (fun msg => is_string (room msg) (currentRoom st) && negb (truthy (isPrivate msg)))
        (messages st)
  end.

End Client.

(** ** Facts about the containers *)

Module JsMapFacts.
Section WithValue.
Context {V : Type}.
Implicit Types (m : list (string * V)) (k : string).

Lemma get_set_same k v m : JsMap.get k (JsMap.set k v m) = Some v.
Proof.
  induction m as [|[k' v'] m IH]; simpl.
  - now rewrite String.eqb_refl.
  - destruct (k =? k') eqn:E; simpl; rewrite ?String.eqb_refl, ?E; auto.
Qed.

Lemma get_set_other k k' v m :
  k' <> k -> JsMap.get k' (JsMap.set k v m) = JsMap.get k' m.
Proof.
  intros Hne. induction m as [|[k0 v0] m IH]; simpl.
  - destruct (String.eqb_spec k' k); congruence.
  - destruct (String.eqb_spec k k0) as [->|]; simpl.
    + destruct (String.eqb_spec k' k0); congruence.
    + now rewrite IH.
Qed.

Lemma get_alter_same f k m :
  JsMap.get k (JsMap.alter f k m) = option_map f (JsMap.get k m).
Proof.
  induction m as [|[k' v'] m IH]; simpl; auto.
  destruct (k =? k') eqn:E; simpl; rewrite E; auto.
Qed.

Lemma get_alter_other f k k' m :
  k' <> k -> JsMap.get k' (JsMap.alter f k m) = JsMap.get k' m.
Proof.
  intros Hne. induction m as [|[k0 v0] m IH]; simpl; auto.
  destruct (String.eqb_spec k k0) as [->|]; simpl.
  - destruct (String.eqb_spec k' k0); congruence.
  - now rewrite IH.
Qed.

Lemma get_delete_same k m : JsMap.get k (JsMap.delete k m) = None.
Proof.
  induction m as [|[k' v'] m IH]; simpl; auto.
  destruct (k =? k') eqn:E; simpl; rewrite ?E; auto.
Qed.

Lemma get_delete_other k k' m :
  k' <> k -> JsMap.get k' (JsMap.delete k m) = JsMap.get k' m.
Proof.
  intros Hne. induction m as [|[k0 v0] m IH]; simpl; auto.
  destruct (String.eqb_spec k k0) as [->|]; simpl.
  - destruct (String.eqb_spec k' k0); congruence.
  - now rewrite IH.
Qed.

Lemma has_alter f k k' m : JsMap.has k' (JsMap.alter f k m) = JsMap.has k' m.
Proof.
  unfold JsMap.has. destruct (String.eqb_spec k' k) as [->|Hne].
  - rewrite get_alter_same. now destruct (JsMap.get k m).
  - now rewrite get_alter_other.
Qed.

Lemma has_set k k' v m :
  JsMap.has k' m = true -> JsMap.has k' (JsMap.set k v m) = true.
Proof.
  unfold JsMap.has. destruct (String.eqb_spec k' k) as [->|Hne].
  - now rewrite get_set_same.
  - now rewrite get_set_other.
Qed.

Lemma has_set_same k v m : JsMap.has k (JsMap.set k v m) = true.
Proof. unfold JsMap.has. now rewrite get_set_same. Qed.

Lemma get_In k v m : JsMap.get k m = Some v -> In (k, v) m.
Proof.
  induction m as [|[k' v'] m IH]; simpl; [discriminate|].
  destruct (String.eqb_spec k k') as [->|]; intros H.
  - left. congruence.
  - right. auto.
Qed.

Lemma alter_alter f g k m :
  JsMap.alter f k (JsMap.alter g k m) = JsMap.alter (fun v => f (g v)) k m.
Proof.
  induction m as [|[k' v'] m IH]; simpl; auto.
  destruct (k =? k') eqn:E; simpl; rewrite E; [reflexivity | now rewrite IH].
Qed.

Lemma alter_ext_at f g k m :
  (forall v, JsMap.get k m = Some v -> f v = g v) ->
  JsMap.alter f k m = JsMap.alter g k m.
Proof.
  induction m as [|[k' v'] m IH]; simpl; auto.
  destruct (k =? k'); intros H.
  - now rewrite H.
  - now rewrite IH.
Qed.
End WithValue.
End JsMapFacts.

Module JsSetFacts.
Lemma has_In x s : JsSet.has x s = true <-> In x s.
Proof.
  unfold JsSet.has. rewrite existsb_exists. split.
  - intros [y [Hy E]]. apply String.eqb_eq in E. now subst.
  - intros H. exists x. split; [assumption | apply String.eqb_refl].
Qed.

Lemma In_delete x y s : In y (JsSet.delete x s) <-> In y s /\ y <> x.
Proof.
  unfold JsSet.delete. rewrite filter_In. split; intros [H1 H2]; split; auto.
  - destruct (String.eqb_spec x y); [discriminate | congruence].
  - destruct (String.eqb_spec x y); [congruence | reflexivity].
Qed.

Lemma has_delete_same x s : JsSet.has x (JsSet.delete x s) = false.
Proof.
  destruct (JsSet.has x (JsSet.delete x s)) eqn:E; [|reflexivity].
  apply has_In, In_delete in E. now destruct E.
Qed.

Lemma In_add x y s : In y (JsSet.add x s) <-> y = x \/ In y s.
Proof.
  unfold JsSet.add. destruct (JsSet.has x s) eqn:E.
  - apply has_In in E. split; [auto | intros [->|]; auto].
  - rewrite in_app_iff. simpl. intuition.
Qed.

Lemma has_add_same x s : JsSet.has x (JsSet.add x s) = true.
Proof. apply has_In, In_add. now left. Qed.

Lemma delete_absent x s : JsSet.has x s = false -> JsSet.delete x s = s.
Proof.
  unfold JsSet.has, JsSet.delete. induction s as [|y s IH]; simpl; auto.
  destruct (x =? y); simpl; [discriminate|]. intros H. now rewrite IH.
Qed.

(** Leaving and joining again, for a member that was added last. *)
Lemma delete_add_last x s :
  JsSet.has x s = false ->
  JsSet.add x (JsSet.delete x (s ++ [x])) = s ++ [x].
Proof.
  intros H. unfold JsSet.delete. rewrite filter_app. simpl.
  rewrite String.eqb_refl. simpl. rewrite app_nil_r.
  fold (JsSet.delete x s). rewrite delete_absent by assumption.
  unfold JsSet.add. now rewrite H.
Qed.

Lemma count_occ_add_absent x s :
  JsSet.has x s = false ->
  count_occ string_dec (JsSet.add x s) x = 1.
Proof.
  intros H. unfold JsSet.add. rewrite H, count_occ_app. simpl.
  destruct (string_dec x x); [|congruence].
  assert (Hn : ~ In x s) by (intros Hin; apply has_In in Hin; congruence).
  apply (count_occ_not_In string_dec) in Hn. lia.
Qed.
End JsSetFacts.

(** ** What each handler does, case by case *)

Ltac run_handler :=
  unfold bind, read, write_users, write_rooms, emit, perform, room_users_of,
    bind, read, ret, throw, skip; simpl.

Lemma join_chat_empty id clk s :
  join_chat id clk "" s = (Some tt, s, [Emit (ToSocket id) (error_message EmptyName)]).
Proof. reflexivity. Qed.

Lemma join_chat_taken id clk name s :
  name <> "" -> name_taken name s = true ->
  join_chat id clk name s = (Some tt, s, [Emit (ToSocket id) (error_message NameTaken)]).
Proof.
  intros Hn Ht. unfold join_chat, name_taken in *.
  destruct (String.eqb_spec name ""); [congruence|]. run_handler.
  destruct (find _ _); [reflexivity | discriminate].
Qed.

Lemma join_chat_fresh id clk name s rm :
  name <> "" -> name_taken name s = false ->
  JsMap.get DEFAULT_ROOM (rooms s) = Some rm ->
  join_chat id clk name s =
    (Some tt, joined_chat id name s,
     join_chat_effects id clk name s ++
     [Emit (ToRoom DEFAULT_ROOM)
        (room_users_update DEFAULT_ROOM
           (occupant_names (joined_chat id name s) DEFAULT_ROOM))]).
Proof.
  intros Hn Ht Hg. unfold join_chat, name_taken in *.
  destruct (String.eqb_spec name ""); [congruence|]. run_handler.
  destruct (find _ _); [discriminate|]. simpl.
  rewrite Hg. simpl.
  unfold occupant_names, joined_chat. simpl.
  rewrite JsMapFacts.get_alter_same, Hg. reflexivity.
Qed.

(** Without the default room the handler stops at line 83, after the
    session has been stored. *)
Lemma join_chat_fresh_no_room id clk name s :
  name <> "" -> name_taken name s = false ->
  JsMap.get DEFAULT_ROOM (rooms s) = None ->
  join_chat id clk name s =
    (None, mkState (JsMap.set id (mkUser name DEFAULT_ROOM) (users s)) (rooms s),
     join_chat_effects id clk name s).
Proof.
  intros Hn Ht Hg. unfold join_chat, name_taken in *.
  destruct (String.eqb_spec name ""); [congruence|]. run_handler.
  destruct (find _ _); [discriminate|]. simpl.
  rewrite Hg. reflexivity.
Qed.

Lemma join_room_unregistered id clk r s :
  JsMap.get id (users s) = None ->
  join_room id clk r s = (Some tt, s, [Emit (ToSocket id) (error_message NotRegistered)]).
Proof. intros H. unfold join_room. run_handler. now rewrite H. Qed.

Lemma ensured_room_has r s : JsMap.has r (rooms (ensured_room r s)) = true.
Proof.
  unfold ensured_room. destruct (JsMap.has r (rooms s)) eqn:E; simpl; auto.
  apply JsMapFacts.has_set_same.
Qed.

Lemma join_room_from id clk r s user s1 :
  JsMap.get id (users s) = Some user ->
  s1 = (if currentRoom user =? "" then s else left_room id (currentRoom user) s) ->
  join_room id clk r s =
    (Some tt, entered_room id r (ensured_room r s1),
     (if currentRoom user =? "" then [] else leave_effects id (clk 0) user s1) ++
     create_effects r s1 (ensured_room r s1) ++
     enter_effects id (clk 1) user r (entered_room id r (ensured_room r s1))).
Proof.
  intros Hu ->. unfold join_room. run_handler. rewrite Hu.
  pose proof (ensured_room_has r
    (if currentRoom user =? "" then s else left_room id (currentRoom user) s)) as Hhas.
  unfold create_effects, ensured_room in *.
  destruct (currentRoom user =? ""); simpl in *;
    match goal with |- context [JsMap.has r ?m] => destruct (JsMap.has r m) eqn:E end;
    simpl in *; unfold JsMap.has in *;
    match type of Hhas with
    | context [JsMap.get r ?m] => destruct (JsMap.get r m) as [rm|] eqn:G
    end; try discriminate; simpl;
    unfold enter_effects, occupant_names, entered_room; simpl;
    rewrite ?JsMapFacts.get_alter_same, ?G; simpl; reflexivity.
Qed.

Lemma send_message_unregistered id clk text s :
  JsMap.get id (users s) = None ->
  send_message id clk text s =
    (Some tt, s, [Emit (ToSocket id) (error_message NotRegistered)]).
Proof. intros H. unfold send_message. run_handler. now rewrite H. Qed.

Lemma send_message_from id clk text s user :
  JsMap.get id (users s) = Some user ->
  send_message id clk text s =
    (Some tt, s,
     [Emit (ToRoom (currentRoom user))
        (receive_message
           (mkMessage (username user) text (clk 0) (Some (currentRoom user)) None None))]).
Proof. intros H. unfold send_message. run_handler. now rewrite H. Qed.

Lemma send_private_unregistered id clk to text s :
  JsMap.get id (users s) = None ->
  send_private_message id clk to text s =
    (Some tt, s, [Emit (ToSocket id) (error_message NotRegistered)]).
Proof. intros H. unfold send_private_message. run_handler. now rewrite H. Qed.

Lemma send_private_offline id clk to text s senderUser :
  JsMap.get id (users s) = Some senderUser ->
  JsMap.get to (users s) = None ->
  send_private_message id clk to text s =
    (Some tt, s, [Emit (ToSocket id) (error_message (RecipientOffline to))]).
Proof.
  intros H1 H2. unfold send_private_message. run_handler. now rewrite H1, H2.
Qed.

Lemma send_private_online id clk to text s senderUser receiverUser :
  JsMap.get id (users s) = Some senderUser ->
  JsMap.get to (users s) = Some receiverUser ->
  send_private_message id clk to text s =
    (Some tt, s,
     [Emit (ToSocket id)
        (receive_message (private_message senderUser receiverUser text (clk 0)));
      Emit (ToRoom to)
        (receive_message (private_message senderUser receiverUser text (clk 0)))]).
Proof.
  intros H1 H2. unfold send_private_message. run_handler. now rewrite H1, H2.
Qed.

Lemma typing_result id b r s :
  typing id b r s =
    (Some tt, s,
     match JsMap.get id (users s) with
     | Some user => [Emit (ToRoomExcept r id) (typing_status (username user) b r)]
     | None => []
     end).
Proof. unfold typing. run_handler. now destruct (JsMap.get id (users s)). Qed.

Lemma disconnect_unregistered id clk s :
  JsMap.get id (users s) = None -> disconnect id clk s = (Some tt, s, []).
Proof. intros H. unfold disconnect. run_handler. now rewrite H. Qed.

Lemma disconnect_from id clk s user s1 :
  JsMap.get id (users s) = Some user ->
  s1 = (if leaves_on_disconnect user s then left_room id (currentRoom user) s else s) ->
  disconnect id clk s =
    (Some tt, mkState (JsMap.delete id (users s)) (rooms s1),
     (if leaves_on_disconnect user s
      then tl (leave_effects id (clk 0) user s1) else []) ++
     [Emit ToAll (user_disconnected id)]).
Proof.
  intros Hu ->. unfold disconnect. run_handler. rewrite Hu.
  unfold leaves_on_disconnect. destruct (currentRoom user =? ""); simpl.
  - reflexivity.
  - destruct (JsMap.has (currentRoom user) (rooms s)) eqn:E; simpl; [|reflexivity].
    unfold JsMap.has in E. rewrite JsMapFacts.get_alter_same.
    unfold occupant_names, left_room. simpl.
    rewrite JsMapFacts.get_alter_same.
    destruct (JsMap.get (currentRoom user) (rooms s)); [reflexivity | discriminate].
Qed.

(** ** Invariants of the reachable states *)

Lemma name_taken_In name s : name_taken name s = true <-> In name (user_names s).
Proof.
  unfold name_taken, user_names, names_of. split.
  - destruct (find _ _) as [u|] eqn:E; [intros _ | discriminate].
    apply find_some in E as [Hin Heq]. apply String.eqb_eq in Heq. subst.
    now apply in_map.
  - intros Hin. apply in_map_iff in Hin as [u [Hu Hin]].
    destruct (find _ _) eqn:E; [reflexivity|].
    apply (find_none _ _ E) in Hin. rewrite Hu, String.eqb_refl in Hin. discriminate.
Qed.

Lemma name_taken_session name s id u :
  JsMap.get id (users s) = Some u -> username u = name -> name_taken name s = true.
Proof.
  intros Hg Hn. apply name_taken_In. unfold user_names, names_of, JsMap.values.
  rewrite map_map. apply JsMapFacts.get_In in Hg.
  apply in_map_iff. exists (id, u). split; auto.
Qed.

Section Names.
Implicit Types (m : list (SocketId * User)).

Lemma names_set_In id u m n :
  In n (names_of (JsMap.set id u m)) -> n = username u \/ In n (names_of m).
Proof.
  unfold names_of. induction m as [|[k v] m IH]; simpl.
  - intros [<-|[]]. now left.
  - destruct (id =? k); simpl.
    + intros [<-|H]; auto.
    + intros [<-|H]; auto. destruct (IH H); auto.
Qed.

Lemma names_set_NoDup id u m :
  ~ In (username u) (names_of m) -> NoDup (names_of m) ->
  NoDup (names_of (JsMap.set id u m)).
Proof.
  unfold names_of. induction m as [|[k v] m IH]; simpl; intros Hn Hd.
  - constructor; [intros [] | constructor].
  - inversion Hd as [|x l Hx Hl]; subst. destruct (id =? k); simpl.
    + constructor; auto.
    + constructor.
      * intros Hin. apply names_set_In in Hin as [E|Hin]; auto.
      * apply IH; auto.
Qed.

Lemma names_alter_currentRoom r id m :
  names_of (JsMap.alter (set_currentRoom r) id m) = names_of m.
Proof.
  unfold names_of. induction m as [|[k v] m IH]; simpl; auto.
  destruct (id =? k); simpl; [reflexivity | now rewrite IH].
Qed.

Lemma names_delete_In id m n : In n (names_of (JsMap.delete id m)) -> In n (names_of m).
Proof.
  unfold names_of. induction m as [|[k v] m IH]; simpl; auto.
  destruct (id =? k); simpl; intuition.
Qed.

Lemma names_delete_NoDup id m : NoDup (names_of m) -> NoDup (names_of (JsMap.delete id m)).
Proof.
  unfold names_of. induction m as [|[k v] m IH]; simpl; auto.
  intros Hd. inversion Hd as [|x l Hx Hl]; subst.
  destruct (id =? k); simpl; auto.
  constructor; auto. intros Hin. now apply names_delete_In in Hin.
Qed.
End Names.

Lemma wf_init : wf init.
Proof. split; simpl; auto. constructor. Qed.

Lemma has_default_get s :
  JsMap.has DEFAULT_ROOM (rooms s) = true ->
  exists rm, JsMap.get DEFAULT_ROOM (rooms s) = Some rm.
Proof.
  unfold JsMap.has. destruct (JsMap.get _ _) as [rm|]; [eauto | discriminate].
Qed.

Lemma wf_joined_chat id name s :
  name <> "" -> name_taken name s = false -> wf s -> wf (joined_chat id name s).
Proof.
  intros Hn Ht [Hd He Hu].
  assert (Hfresh : ~ In name (user_names s)).
  { intros Hin. apply name_taken_In in Hin. congruence. }
  split; unfold joined_chat, user_names in *; simpl.
  - now rewrite JsMapFacts.has_alter.
  - intros Hin. apply names_set_In in Hin as [E|Hin]; simpl in *; auto.
  - apply names_set_NoDup; auto.
Qed.

Lemma wf_rooms_only s s' :
  users s' = users s ->
  (JsMap.has DEFAULT_ROOM (rooms s) = true -> JsMap.has DEFAULT_ROOM (rooms s') = true) ->
  wf s -> wf s'.
Proof.
  intros Hu Hr [Hd He Hn]. split; unfold user_names in *; rewrite ?Hu; auto.
Qed.

Lemma wf_left_room id cur s : wf s -> wf (left_room id cur s).
Proof.
  apply wf_rooms_only; simpl; auto. now rewrite JsMapFacts.has_alter.
Qed.

Lemma wf_ensured_room r s : wf s -> wf (ensured_room r s).
Proof.
  unfold ensured_room. destruct (JsMap.has r (rooms s)); auto.
  apply wf_rooms_only; simpl; auto. apply JsMapFacts.has_set.
Qed.

Lemma wf_entered_room id r s : wf s -> wf (entered_room id r s).
Proof.
  intros [Hd He Hn]. split; unfold entered_room, user_names in *; simpl.
  - now rewrite JsMapFacts.has_alter.
  - now rewrite names_alter_currentRoom.
  - now rewrite names_alter_currentRoom.
Qed.

(** Every handler keeps the invariants and, from a state that has them,
    runs to its end without a [TypeError]. *)
Lemma wf_step id clk ev s :
  wf s ->
  wf (state_after (handler id clk ev) s) /\ threw (handler id clk ev) s = false.
Proof.
  intros Hwf. unfold state_after, threw.
  destruct ev as [name|r|text|to text|r|r|]; simpl.
  - destruct (String.eqb_spec name "") as [->|Hn].
    { rewrite join_chat_empty. auto. }
    destruct (name_taken name s) eqn:Ht.
    { rewrite join_chat_taken by assumption. auto. }
    destruct (has_default_get s (wf_default s Hwf)) as [rm Hrm].
    rewrite (join_chat_fresh id clk name s rm) by assumption. simpl.
    split; [now apply wf_joined_chat | reflexivity].
  - destruct (JsMap.get id (users s)) as [user|] eqn:Hu.
    + rewrite (join_room_from id clk r s user _ Hu eq_refl). simpl.
      split; [|reflexivity].
      apply wf_entered_room, wf_ensured_room.
      destruct (currentRoom user =? ""); auto using wf_left_room.
    + rewrite join_room_unregistered by assumption. auto.
  - destruct (JsMap.get id (users s)) as [user|] eqn:Hu.
    + rewrite (send_message_from id clk text s user Hu). auto.
    + rewrite send_message_unregistered by assumption. auto.
  - destruct (JsMap.get id (users s)) as [user|] eqn:Hu.
    + destruct (JsMap.get to (users s)) as [ru|] eqn:Hr.
      * rewrite (send_private_online id clk to text s user ru Hu Hr). auto.
      * rewrite (send_private_offline id clk to text s user Hu Hr). auto.
    + rewrite send_private_unregistered by assumption. auto.
  - unfold typing_start. rewrite typing_result. auto.
  - unfold typing_stop. rewrite typing_result. auto.
  - destruct (JsMap.get id (users s)) as [user|] eqn:Hu.
    + rewrite (disconnect_from id clk s user _ Hu eq_refl). simpl.
      split; [|reflexivity].
      assert (Hs1 : wf (if leaves_on_disconnect user s
                        then left_room id (currentRoom user) s else s)).
      { destruct (leaves_on_disconnect user s); auto using wf_left_room. }
      destruct Hs1 as [Hd He Hn]. split; unfold user_names in *; simpl.
      * assumption.
      * intros Hin. apply names_delete_In in Hin.
        apply He. now destruct (leaves_on_disconnect user s).
      * apply names_delete_NoDup.
        now destruct (leaves_on_disconnect user s).
    + rewrite disconnect_unregistered by assumption. auto.
Qed.

Lemma reachable_wf s : reachable s -> wf s.
Proof.
  induction 1 as [|s id clk ev _ IH]; [apply wf_init | now apply wf_step].
Qed.

Lemma reachable_run trace s : reachable s -> reachable (run trace s).
Proof.
  revert s. induction trace as [|[[id clk] ev] trace IH]; simpl; intros s Hs; auto.
  apply IH. now constructor.
Qed.

(** ** Rejected operations *)

Lemma rejects_result id clk s ev err :
  rejects id s ev err ->
  handler id clk ev s = (Some tt, s, [Emit (ToSocket id) (error_message err)]).
Proof.
  intros H. destruct H; simpl.
  - apply join_chat_empty.
  - now apply join_chat_taken.
  - now apply join_room_unregistered.
  - now apply send_message_unregistered.
  - now apply send_private_unregistered.
  - eapply send_private_offline; eassumption.
Qed.

Ltac no_error H :=
  repeat (apply in_app_or in H as [H|H]);
  repeat match type of H with
         | In _ (if ?c then _ else _) => destruct c
         end;
  simpl in H; intuition discriminate.

Lemma join_chat_effects_no_error id clk name s t txt :
  ~ In (Emit t (error_message txt)) (join_chat_effects id clk name s).
Proof. intros H. unfold join_chat_effects in H. no_error H. Qed.

(** An error reply is only ever sent by a rejecting guard. *)
Lemma error_rejects id clk s ev t err :
  In (Emit t (error_message err)) (effects_of (handler id clk ev) s) ->
  rejects id s ev err.
Proof.
  unfold effects_of. destruct ev as [name|r|text|to text|r|r|]; simpl.
  - destruct (String.eqb_spec name "") as [->|Hn].
    { rewrite join_chat_empty. simpl. intros [H|[]].
      injection H as _ <-. constructor. }
    destruct (name_taken name s) eqn:Ht.
    { rewrite join_chat_taken by assumption. simpl. intros [H|[]].
      injection H as _ <-. now constructor. }
    destruct (JsMap.get DEFAULT_ROOM (rooms s)) as [rm|] eqn:Hrm.
    + rewrite (join_chat_fresh id clk name s rm) by assumption.
      unfold snd. intros H. apply in_app_or in H as [H|H].
      * now apply join_chat_effects_no_error in H.
      * no_error H.
    + rewrite join_chat_fresh_no_room by assumption. simpl. intros H.
      now apply join_chat_effects_no_error in H.
  - destruct (JsMap.get id (users s)) as [user|] eqn:Hu.
    + rewrite (join_room_from id clk r s user _ Hu eq_refl). simpl.
      unfold create_effects, leave_effects, enter_effects. intros H. no_error H.
    + rewrite join_room_unregistered by assumption. simpl. intros [H|[]].
      injection H as _ <-. now constructor.
  - destruct (JsMap.get id (users s)) as [user|] eqn:Hu.
    + rewrite (send_message_from id clk text s user Hu). intros H. no_error H.
    + rewrite send_message_unregistered by assumption. simpl. intros [H|[]].
      injection H as _ <-. now constructor.
  - destruct (JsMap.get id (users s)) as [user|] eqn:Hu.
    + destruct (JsMap.get to (users s)) as [ru|] eqn:Hr.
      * rewrite (send_private_online id clk to text s user ru Hu Hr).
        intros H. no_error H.
      * rewrite (send_private_offline id clk to text s user Hu Hr). simpl.
        intros [H|[]]. injection H as _ <-. econstructor; eassumption.
    + rewrite send_private_unregistered by assumption. simpl. intros [H|[]].
      injection H as _ <-. now constructor.
  - unfold typing_start. rewrite typing_result. simpl.
    destruct (JsMap.get id (users s)); intros H; no_error H.
  - unfold typing_stop. rewrite typing_result. simpl.
    destruct (JsMap.get id (users s)); intros H; no_error H.
  - destruct (JsMap.get id (users s)) as [user|] eqn:Hu.
    + rewrite (disconnect_from id clk s user _ Hu eq_refl). simpl.
      unfold leave_effects. intros H. no_error H.
    + rewrite disconnect_unregistered by assumption. simpl. intros [].
Qed.

(** C4. Whenever a handler rejects an event (one of the guards EmptyName,
    NameTaken, NotRegistered, RecipientOffline fires, or, what is the same,
    the handler sends any ['error_message'] at all), the handler's only
    effect is that one ['error_message'], sent with [socket.emit] to the
    originating connection, and [users] and [rooms] are exactly what they
    were before. *)
Theorem rejected_operation_is_private_and_pure id clk ev s err :
  rejects id s ev err \/
  (exists t, In (Emit t (error_message err)) (effects_of (handler id clk ev) s)) ->
  handler id clk ev s = (Some tt, s, [Emit (ToSocket id) (error_message err)]) /\
  state_after (handler id clk ev) s = s /\
  effects_of (handler id clk ev) s = [Emit (ToSocket id) (error_message err)].
Proof.
  intros H.
  assert (Hr : rejects id s ev err).
  { destruct H as [H|[t H]]; [assumption | eapply error_rejects; eassumption]. }
  pose proof (rejects_result id clk s ev err Hr) as E.
  unfold state_after, effects_of. rewrite E. auto.
Qed.

Lemma rejected_operation_witness :
  handler "s1" (fun _ => "t") (SendPrivateMessage "s2" "hi")
    (joined_chat "s1" "alice" init)
  = (Some tt, joined_chat "s1" "alice" init,
     [Emit (ToSocket "s1") (error_message (RecipientOffline "s2"))]).
Proof.
  apply (rejected_operation_is_private_and_pure "s1" (fun _ => "t")
           (SendPrivateMessage "s2" "hi") (joined_chat "s1" "alice" init)
           (RecipientOffline "s2")).
  left. apply (rej_offline _ _ _ _ (mkUser "alice" DEFAULT_ROOM)); reflexivity.
Defined.

(** ** Registration: empty and blank names *)

(** C3, as stated, fails: a name made of one space is blank after trimming,
    yet [join_chat] on a fresh server registers it and replies no
    ['error_message']; the handler tests [!username] and never trims. *)
Lemma blank_name_is_registered :
  blank_after_trim " " = true /\
  JsMap.get "s1" (users init) = None /\
  JsMap.get "s1" (users (state_after (join_chat "s1" (fun _ => "t") " ") init))
    = Some (mkUser " " DEFAULT_ROOM) /\
  existsb is_error (effects_of (join_chat "s1" (fun _ => "t") " ") init) = false.
Proof. repeat split. Qed.

(** C3, amended. [join_chat] with the empty name is rejected with
    EmptyName: the only effect is the ['error_message'] to the caller, and
    the stores are untouched, so no session is created; with any other
    name, blank or not, that reply is never sent. *)
Theorem empty_name_is_rejected id clk name s :
  if name =? "" then
    join_chat id clk name s =
      (Some tt, s, [Emit (ToSocket id) (error_message EmptyName)])
  else
    forall t, ~ In (Emit t (error_message EmptyName)) (effects_of (join_chat id clk name) s).
Proof.
  destruct (String.eqb_spec name "") as [->|Hn]; [reflexivity|].
  intros t Hin.
  apply (error_rejects id clk s (JoinChat name)) in Hin.
  inversion Hin; subst; congruence.
Qed.

(** ** Private messages *)




(** C10, as stated, fails.  The second copy is addressed to the room
    labelled with the sender's id, and the server's own [socket.leave]
    (line 102) takes the sender out of that room once it has asked for a
    room of that name and then for another: the private message to itself
    then reaches the sender once, not twice. *)
Lemma self_message_single_copy :
  let trace := [("s1", t0, JoinChat "alice"); ("s1", t0, JoinRoom "s1");
                ("s1", t0, JoinRoom "dev")] in
  disciplined trace init = true /\
  JsMap.get "s1" (users (run trace init)) = Some (mkUser "alice" "dev") /\
  run_subscriptions trace init own_rooms "s1" "s1" = false /\
  deliveries (run_subscriptions trace init own_rooms) "s1"
    (effects_of (send_private_message "s1" t0 "s1" "note") (run trace init)) =
    [receive_message (mkMessage "alice" "note" "t" None (Some true) (Some "alice"))].
Proof. repeat split. Qed.

(** C10, amended. A connection with a session that sends a private
    message to its own connection-id is not refused: the handler emits two
    ['receive_message'] events with the same message, whose sender and
    receiver are both the connection's user name, one with [socket.emit]
    and one addressed to the connection-id; with the connection subscribed
    to the transport room of its own id, both reach it, so that it
    receives the message twice. *)
Theorem private_message_to_self id clk text s user subscribed :
  JsMap.get id (users s) = Some user ->
  subscribed id id = true ->
  let m := mkMessage (username user) text (clk 0) None (Some true)
             (Some (username user)) in
  send_private_message id clk id text s =
    (Some tt, s,
     [Emit (ToSocket id) (receive_message m); Emit (ToRoom id) (receive_message m)]) /\
  forallb (fun e => reaches subscribed e id)
    (effects_of (send_private_message id clk id text) s) = true /\
  deliveries subscribed id (effects_of (send_private_message id clk id text) s) =
    [receive_message m; receive_message m].
Proof.
  intros Hu Hsub m. unfold effects_of.
  rewrite (send_private_online id clk id text s user user Hu Hu).
  split; [reflexivity|]. simpl. now rewrite String.eqb_refl, Hsub.
Qed.

Lemma private_message_to_self_witness :
  send_private_message "s1" (fun _ => "t") "s1" "note" (joined_chat "s1" "alice" init) =
    (Some tt, joined_chat "s1" "alice" init,
     [Emit (ToSocket "s1")
        (receive_message (mkMessage "alice" "note" "t" None (Some true) (Some "alice")));
      Emit (ToRoom "s1")
        (receive_message (mkMessage "alice" "note" "t" None (Some true) (Some "alice")))]).
Proof.
  apply (private_message_to_self "s1" (fun _ => "t") "note"
           (joined_chat "s1" "alice" init) (mkUser "alice" DEFAULT_ROOM)
           (fun c label => c =? label)); reflexivity.
Defined.

(** ** Typing indicators *)




(** ** Registration: distinct names *)

(** C7, as stated, fails: the one-call sequence with the empty name has
    pairwise-distinct names, and its call is rejected. *)
Lemma distinct_names_empty_name_fails :
  NoDup (call_names [("s1", fun _ : nat => "t", "")]) /\
  all_succeed [("s1", fun _ : nat => "t", "")] init = false /\
  effects_of (join_chat "s1" (fun _ => "t") "") init =
    [Emit (ToSocket "s1") (error_message EmptyName)].
Proof.
  split; [|split; reflexivity].
  constructor; [intros [] | constructor].
Qed.

Lemma join_chat_fresh_succeeds id clk name s :
  wf s -> name <> "" -> name_taken name s = false ->
  join_chat_succeeds id clk name s = true /\
  state_after (join_chat id clk name) s = joined_chat id name s.
Proof.
  intros Hwf Hn Ht.
  destruct (has_default_get s (wf_default s Hwf)) as [rm Hrm].
  unfold join_chat_succeeds, threw, effects_of, state_after, registered.
  rewrite (join_chat_fresh id clk name s rm) by assumption. simpl.
  rewrite JsMapFacts.get_set_same. simpl. now rewrite String.eqb_refl.
Qed.

Lemma name_taken_joined_chat id name n s :
  name_taken n (joined_chat id name s) = true -> n = name \/ name_taken n s = true.
Proof.
  intros H. apply name_taken_In in H. unfold user_names, joined_chat in H.
  simpl in H. apply names_set_In in H as [->|H]; simpl; auto.
  right. now apply name_taken_In.
Qed.

Lemma all_succeed_wf calls :
  forall s,
    wf s ->
    NoDup (call_names calls) ->
    ~ In "" (call_names calls) ->
    forallb (fun n => negb (name_taken n s)) (call_names calls) = true ->
    all_succeed calls s = true /\ wf (run_join_chats calls s).
Proof.
  induction calls as [|[[id clk] name] rest IH]; intros s Hwf Hd He Hf.
  - split; [reflexivity | exact Hwf].
  - simpl in *. inversion Hd as [|x l Hx Hl]; subst.
    apply andb_prop in Hf as [Hname Hrest]. apply negb_true_iff in Hname.
    assert (Hn : name <> "") by (intros ->; apply He; now left).
    destruct (join_chat_fresh_succeeds id clk name s Hwf Hn Hname) as [Hok Hst].
    unfold run_join_chats in *. simpl. rewrite Hok, Hst. simpl.
    apply IH; auto.
    + now apply wf_joined_chat.
    + apply forallb_forall. intros n Hin. apply negb_true_iff.
      destruct (name_taken n (joined_chat id name s)) eqn:E; [|reflexivity].
      apply name_taken_joined_chat in E as [->|E]; [contradiction|].
      rewrite forallb_forall in Hrest. specialize (Hrest n Hin).
      rewrite E in Hrest. discriminate.
Qed.

(** C7, amended. From any reachable state, a sequence of [join_chat] calls
    whose names are non-empty, pairwise distinct and not in use succeeds
    call by call, and the sessions that result have pairwise-distinct
    user names; and then, as in every reachable state, a call whose name
    equals the user name of an existing session, character for character,
    is rejected with NameTaken and changes nothing. *)
Theorem distinct_names_all_register s calls :
  reachable s ->
  NoDup (call_names calls) ->
  ~ In "" (call_names calls) ->
  forallb (fun n => negb (name_taken n s)) (call_names calls) = true ->
  all_succeed calls s = true /\
  NoDup (user_names (run_join_chats calls s)) /\
  forall id clk other u,
    JsMap.get other (users (run_join_chats calls s)) = Some u ->
    join_chat id clk (username u) (run_join_chats calls s) =
      (Some tt, run_join_chats calls s,
       [Emit (ToSocket id) (error_message NameTaken)]).
Proof.
  intros Hr Hd He Hf. apply reachable_wf in Hr.
  destruct (all_succeed_wf calls s Hr Hd He Hf) as [Hall Hwf].
  split; [assumption|]. split; [apply (wf_distinct _ Hwf)|].
  intros id clk other u Hu.
  pose proof (name_taken_session (username u) _ other u Hu eq_refl) as Ht.
  apply join_chat_taken; [|assumption].
  intros E. apply (wf_nonempty _ Hwf). rewrite <- E. now apply name_taken_In.
Qed.

Lemma distinct_names_all_register_witness :
  all_succeed [("s1", fun _ : nat => "t", "alice"); ("s2", fun _ : nat => "t", "bob")] init
  = true.
Proof.
  apply (distinct_names_all_register init
           [("s1", fun _ : nat => "t", "alice"); ("s2", fun _ : nat => "t", "bob")]).
  - constructor.
  - simpl. repeat constructor; simpl; intuition discriminate.
  - simpl. intuition discriminate.
  - reflexivity.
Defined.

(** ** Changing room *)

(** C5, as stated, fails: the connection below has a session whose
    [currentRoom] is the empty string (it asked for the room of that name),
    and its next [join_room] skips the first step: nothing is sent to the
    old room and the connection stays in the old room's occupant set. *)
Lemma join_room_skips_leave_step :
  let s := run [("s1", t0, JoinChat "alice"); ("s1", t0, JoinRoom "")] init in
  JsMap.get "s1" (users s) = Some (mkUser "alice" "") /\
  effects_of (join_room "s1" t0 "dev") s =
    [ Emit ToAll (available_rooms ["general"; ""; "dev"]);
      SockJoin "s1" "dev";
      Emit (ToRoom "dev") (room_users_update "dev" ["alice"]);
      Emit (ToRoom "dev")
        (receive_message (system_message "alice has joined the room." "t" "dev"));
      Emit (ToSocket "s1") (room_changed "dev") ] /\
  JsMap.get "" (rooms (state_after (join_room "s1" t0 "dev") s)) =
    Some (mkRoom "" ["s1"]).
Proof. repeat split. Qed.

(** C5, amended. For a connection with a session whose [currentRoom] is
    not the empty string, [join_room r] does, in this order and nothing
    else besides the transport's [leave] and [join]: (1) removes the
    connection from its current room's occupant set and sends the old room
    the occupant names as they then are, then the has-left message;
    (2) creates room [r] if it is missing and, only then, sends all
    connections the room ids; (3) sets the session's [currentRoom] to [r]
    and adds the connection to [r]'s occupant set; (4) sends room [r] the
    occupant names as they then are, then the has-joined message;
    (5) sends the caller alone ['room_changed'] with [r]. *)
Theorem join_room_steps id clk r s user :
  JsMap.get id (users s) = Some user ->
  currentRoom user <> "" ->
  let cur := currentRoom user in
  let s1 := mkState (users s) (JsMap.alter (delete_user id) cur (rooms s)) in
  let s2 := if JsMap.has r (rooms s1) then s1
            else mkState (users s1) (JsMap.set r (mkRoom r []) (rooms s1)) in
  let s3 := mkState (JsMap.alter (set_currentRoom r) id (users s2))
                    (JsMap.alter (add_user id) r (rooms s2)) in
  join_room id clk r s =
    (Some tt, s3,
     [ SockLeave id cur;
       Emit (ToRoom cur) (room_users_update cur (occupant_names s1 cur));
       Emit (ToRoom cur)
         (receive_message (system_message (left_text (username user)) (clk 0) cur)) ]
     ++ (if JsMap.has r (rooms s1) then []
         else [Emit ToAll (available_rooms (JsMap.keys (rooms s2)))])
     ++ [ SockJoin id r;
          Emit (ToRoom r) (room_users_update r (occupant_names s3 r));
          Emit (ToRoom r)
            (receive_message (system_message (joined_text (username user)) (clk 1) r));
          Emit (ToSocket id) (room_changed r) ]) /\
  (forall rm, JsMap.get cur (rooms s1) = Some rm -> JsSet.has id (room_users rm) = false) /\
  JsMap.has r (rooms s2) = true /\
  JsMap.get id (users s3) = Some (mkUser (username user) r) /\
  exists rm, JsMap.get r (rooms s3) = Some rm /\ JsSet.has id (room_users rm) = true.
Proof.
  intros Hu Hcur cur s1 s2 s3.
  assert (E2 : s2 = ensured_room r s1) by (unfold s2, ensured_room; now destruct (JsMap.has r (rooms s1))).
  assert (Hhas : JsMap.has r (rooms s2) = true) by (rewrite E2; apply ensured_room_has).
  split; [|split; [|split; [|split]]].
  - rewrite (join_room_from id clk r s user s1 Hu).
    + apply String.eqb_neq in Hcur. rewrite Hcur, E2. reflexivity.
    + apply String.eqb_neq in Hcur. now rewrite Hcur.
  - intros rm. unfold s1. simpl. rewrite JsMapFacts.get_alter_same.
    destruct (JsMap.get cur (rooms s)); simpl; [|discriminate].
    intros H. injection H as <-. apply JsSetFacts.has_delete_same.
  - exact Hhas.
  - unfold s3. simpl. rewrite JsMapFacts.get_alter_same.
    replace (users s2) with (users s)
      by (unfold s2; now destruct (JsMap.has r (rooms s1))).
    now rewrite Hu.
  - unfold s3. simpl. rewrite JsMapFacts.get_alter_same.
    unfold JsMap.has in Hhas. destruct (JsMap.get r (rooms s2)) as [rm|]; [|discriminate].
    exists (add_user id rm). split; [reflexivity|]. apply JsSetFacts.has_add_same.
Qed.

Lemma join_room_steps_witness :
  JsMap.get "s1"
    (users (state_after (join_room "s1" t0 "dev") (joined_chat "s1" "alice" init)))
  = Some (mkUser "alice" "dev").
Proof.
  pose proof (join_room_steps "s1" t0 "dev" (joined_chat "s1" "alice" init)
                (mkUser "alice" DEFAULT_ROOM) eq_refl) as H.
  simpl in H. apply H. discriminate.
Defined.

(** ** Joining the same room twice *)

Lemma users_ensured_room r s : users (ensured_room r s) = users s.
Proof. unfold ensured_room. now destruct (JsMap.has r (rooms s)). Qed.

Lemma has_ensured_room r k s :
  JsMap.has k (rooms s) = true -> JsMap.has k (rooms (ensured_room r s)) = true.
Proof.
  unfold ensured_room. destruct (JsMap.has r (rooms s)); simpl; auto.
  apply JsMapFacts.has_set.
Qed.

Lemma occupies_none_left id cur s :
  only_in id cur (rooms s) = true -> occupies_none id (left_room id cur s).
Proof.
  intros Honly r rm. unfold left_room. simpl.
  destruct (String.eqb_spec r cur) as [->|Hne].
  - rewrite JsMapFacts.get_alter_same.
    destruct (JsMap.get cur (rooms s)); simpl; [|discriminate].
    intros H. injection H as <-. apply JsSetFacts.has_delete_same.
  - rewrite JsMapFacts.get_alter_other by assumption. intros Hg.
    apply JsMapFacts.get_In in Hg. unfold only_in in Honly.
    rewrite forallb_forall in Honly. specialize (Honly _ Hg). simpl in Honly.
    apply String.eqb_neq in Hne. rewrite Hne in Honly.
    now destruct (JsSet.has id (room_users rm)).
Qed.

Lemma occupies_none_ensured id r s :
  occupies_none id s -> occupies_none id (ensured_room r s).
Proof.
  intros H r' rm. unfold ensured_room.
  destruct (JsMap.has r (rooms s)); [apply H|]. simpl.
  destruct (String.eqb_spec r' r) as [->|Hne].
  - rewrite JsMapFacts.get_set_same. intros E. now injection E as <-.
  - rewrite JsMapFacts.get_set_other by assumption. apply H.
Qed.

Lemma count_occ_absent id l : JsSet.has id l = false -> count_occ string_dec l id = 0.
Proof.
  intros H. apply count_occ_not_In. intros Hin.
  apply JsSetFacts.has_In in Hin. congruence.
Qed.

(** Entering [r] from a state in which the connection occupies no room. *)
Lemma entered_room_membership id r s r' rm :
  occupies_none id s ->
  JsMap.get r' (rooms (entered_room id r s)) = Some rm ->
  count_occ string_dec (room_users rm) id = if r' =? r then 1 else 0.
Proof.
  intros Hnone. unfold entered_room. simpl.
  destruct (String.eqb_spec r' r) as [->|Hne].
  - rewrite JsMapFacts.get_alter_same.
    destruct (JsMap.get r (rooms s)) as [rm0|] eqn:G; simpl; [|discriminate].
    intros E. injection E as <-. simpl.
    apply JsSetFacts.count_occ_add_absent. eapply Hnone; eassumption.
  - rewrite JsMapFacts.get_alter_other by assumption. intros G.
    apply count_occ_absent. eapply Hnone; eassumption.
Qed.

(** Leaving and entering [r] again right after entering it gives back the
    same stores. *)
Lemma reenter_same id r s :
  occupies_none id s ->
  JsMap.has r (rooms s) = true ->
  entered_room id r (ensured_room r (left_room id r (entered_room id r s)))
  = entered_room id r s.
Proof.
  intros Hnone Hhas.
  assert (E : ensured_room r (left_room id r (entered_room id r s))
              = left_room id r (entered_room id r s)).
  { unfold ensured_room, left_room, entered_room. simpl.
    now rewrite !JsMapFacts.has_alter, Hhas. }
  rewrite E. unfold entered_room, left_room. simpl. f_equal.
  - rewrite JsMapFacts.alter_alter. apply JsMapFacts.alter_ext_at.
    intros v _. reflexivity.
  - rewrite !JsMapFacts.alter_alter. apply JsMapFacts.alter_ext_at.
    intros rm G. unfold add_user, delete_user. simpl. f_equal.
    specialize (Hnone r rm G).
    unfold JsSet.add at 2. rewrite Hnone.
    rewrite JsSetFacts.delete_add_last by assumption.
    unfold JsSet.add. now rewrite Hnone.
Qed.

(** C8, as stated, fails for the room whose name is the empty string: the
    second of two [join_room] calls in a row finds [currentRoom] falsy and
    emits the join broadcasts without the leave broadcasts. *)
Lemma join_room_twice_empty_name :
  let s := run [("s1", t0, JoinChat "alice"); ("s1", t0, JoinRoom "")] init in
  JsMap.get "s1" (users s) = Some (mkUser "alice" "") /\
  effects_of (join_room "s1" t0 "") s =
    [ SockJoin "s1" "";
      Emit (ToRoom "") (room_users_update "" ["alice"]);
      Emit (ToRoom "")
        (receive_message (system_message "alice has joined the room." "t" ""));
      Emit (ToSocket "s1") (room_changed "") ].
Proof. repeat split. Qed.

(** C8, amended. Take a connection with a session whose [currentRoom] is
    not the empty string and which occupies no room but that one, and a
    room name [R] other than the empty string.  Two [join_room R] calls in
    a row each emit the leave broadcasts (to the room being left: occupant
    names, then has-left) and the join broadcasts (to [R]: occupant names,
    then has-joined); the second call leaves the stores exactly as the
    first left them; and in them the connection-id occurs once in [R]'s
    occupant set and in no other room's. *)
Theorem join_room_twice id clk clk' R s user :
  JsMap.get id (users s) = Some user ->
  currentRoom user <> "" ->
  R <> "" ->
  only_in id (currentRoom user) (rooms s) = true ->
  let s1 := state_after (join_room id clk R) s in
  let s2 := state_after (join_room id clk' R) s1 in
  let left := left_room id (currentRoom user) s in
  let user1 := mkUser (username user) R in
  effects_of (join_room id clk R) s =
    leave_effects id (clk 0) user left
    ++ create_effects R left (ensured_room R left)
    ++ enter_effects id (clk 1) user R s1 /\
  effects_of (join_room id clk' R) s1 =
    leave_effects id (clk' 0) user1 (left_room id R s1)
    ++ enter_effects id (clk' 1) user1 R s2 /\
  s2 = s1 /\
  (exists rm, JsMap.get R (rooms s2) = Some rm) /\
  forall r rm,
    JsMap.get r (rooms s2) = Some rm ->
    count_occ string_dec (room_users rm) id = if r =? R then 1 else 0.
Proof.
  intros Hu Hcur HR Honly s1 s2 left user1.
  apply String.eqb_neq in Hcur. apply String.eqb_neq in HR.
  pose proof (join_room_from id clk R s user left Hu) as E1.
  rewrite Hcur in E1. specialize (E1 eq_refl).
  set (base := ensured_room R left) in *.
  assert (Hnone : occupies_none id base).
  { apply occupies_none_ensured, occupies_none_left, Honly. }
  assert (Hhas : JsMap.has R (rooms base) = true) by apply ensured_room_has.
  assert (Es1 : s1 = entered_room id R base).
  { unfold s1, state_after. now rewrite E1. }
  assert (Hu1 : JsMap.get id (users s1) = Some user1).
  { rewrite Es1. unfold entered_room. simpl. rewrite JsMapFacts.get_alter_same.
    unfold base. rewrite users_ensured_room. simpl. now rewrite Hu. }
  pose proof (join_room_from id clk' R s1 user1 (left_room id R s1) Hu1) as E2.
  simpl in E2. rewrite HR in E2. specialize (E2 eq_refl).
  assert (Hsame : entered_room id R (ensured_room R (left_room id R s1)) = s1).
  { rewrite Es1. now apply reenter_same. }
  assert (Es2 : s2 = s1).
  { unfold s2, state_after. rewrite E2. simpl. exact Hsame. }
  assert (Hhas1 : JsMap.has R (rooms (left_room id R s1)) = true).
  { rewrite Es1. unfold left_room, entered_room. simpl.
    now rewrite !JsMapFacts.has_alter. }
  split; [|split; [|split; [|split]]].
  - unfold effects_of. rewrite E1. simpl. now rewrite <- Es1.
  - unfold effects_of. rewrite E2. unfold snd.
    unfold create_effects. rewrite Hhas1. rewrite Hsame, Es2. reflexivity.
  - exact Es2.
  - rewrite Es2, Es1. unfold entered_room. simpl.
    rewrite JsMapFacts.get_alter_same. unfold JsMap.has in Hhas.
    destruct (JsMap.get R (rooms base)); [simpl; eauto | discriminate].
  - intros r rm. rewrite Es2, Es1. now apply entered_room_membership.
Qed.

Lemma join_room_twice_witness :
  state_after (join_room "s1" t0 "dev")
    (state_after (join_room "s1" t0 "dev") (joined_chat "s1" "alice" init))
  = state_after (join_room "s1" t0 "dev") (joined_chat "s1" "alice" init).
Proof.
  apply (join_room_twice "s1" t0 t0 "dev" (joined_chat "s1" "alice" init)
           (mkUser "alice" DEFAULT_ROOM)).
  - reflexivity.
  - discriminate.
  - discriminate.
  - reflexivity.
Defined.

(** ** Occupant sets and sessions *)

Section Occupancy.
Implicit Types (rms : list (string * Room)) (us : list (SocketId * User)).

Lemma occupant_add id r rms id' r' :
  JsMap.has r rms = true ->
  occupant (JsMap.alter (add_user id) r rms) id' r' <->
  occupant rms id' r' \/ (id' = id /\ r' = r).
Proof.
  intros Hhas. unfold occupant, JsMap.has in *.
  destruct (String.eqb_spec r' r) as [->|Hne].
  - rewrite JsMapFacts.get_alter_same.
    destruct (JsMap.get r rms) as [rm0|]; [|discriminate]. simpl. split.
    + intros [rm [E Hin]]. injection E as <-. simpl in Hin.
      apply JsSetFacts.In_add in Hin as [->|Hin]; eauto.
    + intros [[rm [E Hin]]|[-> _]].
      * injection E as <-. eexists. split; [reflexivity|]. simpl.
        apply JsSetFacts.In_add. now right.
      * eexists. split; [reflexivity|]. simpl. apply JsSetFacts.In_add. now left.
  - rewrite JsMapFacts.get_alter_other by assumption. intuition.
Qed.

Lemma occupant_delete id r rms id' r' :
  occupant (JsMap.alter (delete_user id) r rms) id' r' <->
  occupant rms id' r' /\ ~ (id' = id /\ r' = r).
Proof.
  unfold occupant. destruct (String.eqb_spec r' r) as [->|Hne].
  - rewrite JsMapFacts.get_alter_same.
    destruct (JsMap.get r rms) as [rm0|]; simpl; split.
    + intros [rm [E Hin]]. injection E as <-. simpl in Hin.
      apply JsSetFacts.In_delete in Hin as [Hin Hd]. split; [eauto | tauto].
    + intros [[rm [E Hin]] Hn]. injection E as <-. eexists. split; [reflexivity|].
      simpl. apply JsSetFacts.In_delete. split; [assumption|].
      intros ->. now apply Hn.
    + intros [rm [E _]]. discriminate.
    + intros [[rm [E _]] _]. discriminate.
  - rewrite JsMapFacts.get_alter_other by assumption. intuition.
Qed.

Lemma occupant_new r rms id' r' :
  JsMap.has r rms = false ->
  occupant (JsMap.set r (mkRoom r []) rms) id' r' <-> occupant rms id' r'.
Proof.
  intros Hhas. unfold occupant, JsMap.has in *.
  destruct (String.eqb_spec r' r) as [->|Hne].
  - rewrite JsMapFacts.get_set_same.
    destruct (JsMap.get r rms); [discriminate|]. split.
    + intros [rm [E Hin]]. injection E as <-. destruct Hin.
    + intros [rm [E _]]. discriminate.
  - rewrite JsMapFacts.get_set_other by assumption. reflexivity.
Qed.

Lemma occupant_ensured r s id' r' :
  occupant (rooms (ensured_room r s)) id' r' <-> occupant (rooms s) id' r'.
Proof.
  unfold ensured_room. destruct (JsMap.has r (rooms s)) eqn:E; [reflexivity|].
  now apply occupant_new.
Qed.

Lemma session_set id u us id' r' :
  session (JsMap.set id u us) id' r' <->
  (id' = id /\ r' = currentRoom u) \/ (id' <> id /\ session us id' r').
Proof.
  unfold session. destruct (String.eqb_spec id' id) as [->|Hne].
  - rewrite JsMapFacts.get_set_same. split.
    + intros [u' [E <-]]. injection E as <-. auto.
    + intros [[_ ->]|[Hn _]]; [eauto | congruence].
  - rewrite JsMapFacts.get_set_other by assumption. intuition.
Qed.

Lemma session_move id r user us id' r' :
  JsMap.get id us = Some user ->
  session (JsMap.alter (set_currentRoom r) id us) id' r' <->
  (id' = id /\ r' = r) \/ (id' <> id /\ session us id' r').
Proof.
  intros Hu. unfold session. destruct (String.eqb_spec id' id) as [->|Hne].
  - rewrite JsMapFacts.get_alter_same, Hu. simpl. split.
    + intros [u' [E <-]]. injection E as <-. auto.
    + intros [[_ ->]|[Hn _]]; [eauto | congruence].
  - rewrite JsMapFacts.get_alter_other by assumption. intuition.
Qed.

Lemma session_delete id us id' r' :
  session (JsMap.delete id us) id' r' <-> id' <> id /\ session us id' r'.
Proof.
  unfold session. destruct (String.eqb_spec id' id) as [->|Hne].
  - rewrite JsMapFacts.get_delete_same. split.
    + intros [u [E _]]. discriminate.
    + intros [Hn _]. congruence.
  - rewrite JsMapFacts.get_delete_other by assumption. intuition.
Qed.

Lemma session_unique us id user r :
  JsMap.get id us = Some user -> session us id r <-> r = currentRoom user.
Proof.
  intros Hu. unfold session. rewrite Hu. split.
  - intros [u [E <-]]. now injection E as <-.
  - intros ->. eauto.
Qed.

Lemma session_none us id r : JsMap.get id us = None -> ~ session us id r.
Proof. intros Hu [u [E _]]. congruence. Qed.
End Occupancy.

Lemma consistent_init : consistent init.
Proof.
  split; simpl; auto.
  - intros id r. unfold occupant, session. simpl. split.
    + intros [rm [E Hin]]. destruct (r =? DEFAULT_ROOM); [|discriminate].
      injection E as <-. destruct Hin.
    + intros [u [E _]]. discriminate.
  - discriminate.
Qed.

Lemma consistent_step id clk ev s :
  consistent s -> event_ok s id ev = true ->
  consistent (state_after (handler id clk ev) s).
Proof.
  intros [Hocc Hset Hdef] Hok. unfold state_after.
  destruct ev as [name|r|text|to text|r|r|]; simpl in *.
  - destruct (String.eqb_spec name "") as [->|Hn].
    { rewrite join_chat_empty. now split. }
    destruct (name_taken name s) eqn:Ht.
    { rewrite join_chat_taken by assumption. now split. }
    destruct (has_default_get s Hdef) as [rm Hrm].
    rewrite (join_chat_fresh id clk name s rm) by assumption. simpl.
    apply negb_true_iff in Hok. unfold JsMap.has in Hok.
    destruct (JsMap.get id (users s)) eqn:Hu; [discriminate|].
    split; simpl.
    + intros id' r'. unfold joined_chat. simpl.
      rewrite occupant_add by assumption. rewrite session_set.
      simpl. specialize (Hocc id' r'). pose proof (session_none _ _ r' Hu) as Hnone.
      destruct (string_dec id' id) as [->|Hne]; tauto.
    + intros id' u'. destruct (String.eqb_spec id' id) as [->|Hne].
      * rewrite JsMapFacts.get_set_same. intros E. injection E as <-. discriminate.
      * rewrite JsMapFacts.get_set_other by assumption. apply Hset.
    + now rewrite JsMapFacts.has_alter.
  - destruct (JsMap.get id (users s)) as [user|] eqn:Hu.
    2:{ rewrite join_room_unregistered by assumption. now split. }
    rewrite (join_room_from id clk r s user _ Hu eq_refl). simpl.
    pose proof (Hset id user Hu) as Hcur. apply String.eqb_neq in Hcur.
    rewrite Hcur. apply negb_true_iff, String.eqb_neq in Hok.
    set (base := ensured_room r (left_room id (currentRoom user) s)).
    assert (Hhas : JsMap.has r (rooms base) = true) by apply ensured_room_has.
    assert (Hub : users base = users s)
      by (unfold base; now rewrite users_ensured_room).
    split; unfold entered_room; simpl.
    + intros id' r'. simpl. rewrite occupant_add by assumption.
      unfold base at 1. rewrite occupant_ensured. unfold left_room at 1. simpl.
      rewrite occupant_delete. rewrite Hub.
      rewrite (session_move id r user) by assumption.
      specialize (Hocc id' r').
      pose proof (session_unique _ _ _ r' Hu) as Huniq.
      destruct (string_dec id' id) as [->|Hne]; tauto.
    + intros id' u'. rewrite Hub. destruct (String.eqb_spec id' id) as [->|Hne].
      * rewrite JsMapFacts.get_alter_same, Hu. simpl. intros E.
        injection E as <-. simpl. assumption.
      * rewrite JsMapFacts.get_alter_other by assumption. apply Hset.
    + rewrite JsMapFacts.has_alter. apply has_ensured_room. simpl.
      now rewrite JsMapFacts.has_alter.
  - destruct (JsMap.get id (users s)) as [user|] eqn:Hu.
    + rewrite (send_message_from id clk text s user Hu). now split.
    + rewrite send_message_unregistered by assumption. now split.
  - destruct (JsMap.get id (users s)) as [user|] eqn:Hu.
    + destruct (JsMap.get to (users s)) as [ru|] eqn:Hr.
      * rewrite (send_private_online id clk to text s user ru Hu Hr). now split.
      * rewrite (send_private_offline id clk to text s user Hu Hr). now split.
    + rewrite send_private_unregistered by assumption. now split.
  - unfold typing_start. rewrite typing_result. now split.
  - unfold typing_stop. rewrite typing_result. now split.
  - destruct (JsMap.get id (users s)) as [user|] eqn:Hu.
    2:{ rewrite disconnect_unregistered by assumption. now split. }
    rewrite (disconnect_from id clk s user _ Hu eq_refl). simpl.
    assert (Hleaves : leaves_on_disconnect user s = true).
    { unfold leaves_on_disconnect. pose proof (Hset id user Hu) as Hcur.
      apply String.eqb_neq in Hcur. rewrite Hcur. simpl.
      destruct (proj2 (Hocc id (currentRoom user))) as [rm [E _]].
      - now apply (session_unique _ _ _ _ Hu).
      - unfold JsMap.has. now rewrite E. }
    rewrite Hleaves. split; simpl.
    + intros id' r'. simpl. rewrite occupant_delete, session_delete.
      specialize (Hocc id' r').
      pose proof (session_unique _ _ _ r' Hu) as Huniq.
      destruct (string_dec id' id) as [->|Hne]; tauto.
    + intros id' u'. destruct (String.eqb_spec id' id) as [->|Hne].
      * rewrite JsMapFacts.get_delete_same. discriminate.
      * rewrite JsMapFacts.get_delete_other by assumption. apply Hset.
    + now rewrite JsMapFacts.has_alter.
Qed.

Lemma consistent_run trace :
  forall s, consistent s -> disciplined trace s = true -> consistent (run trace s).
Proof.
  induction trace as [|[[id clk] ev] rest IH]; intros s Hs Hd; simpl in *.
  - exact Hs.
  - apply andb_prop in Hd as [Hok Hrest]. apply IH; [|exact Hrest].
    now apply consistent_step.
Qed.

(** C1, as stated, fails in two reachable states.  In the first the
    connection asked for the room named by the empty string and then for
    another room: [join_room] found [currentRoom] falsy and left it in the
    old occupant set.  In the second the connection sent [join_chat] again
    from another room: its session moved to the default room and the old
    occupant set kept it. *)
Lemma occupancy_breaks :
  let s := run [("s1", t0, JoinChat "alice"); ("s1", t0, JoinRoom "");
                ("s1", t0, JoinRoom "dev")] init in
  let s' := run [("s1", t0, JoinChat "alice"); ("s1", t0, JoinRoom "dev");
                 ("s1", t0, JoinChat "bob")] init in
  (reachable s /\
   JsMap.get "" (rooms s) = Some (mkRoom "" ["s1"]) /\
   JsMap.get "s1" (users s) = Some (mkUser "alice" "dev") /\
   ~ occupancy_consistent s) /\
  (reachable s' /\
   JsMap.get "dev" (rooms s') = Some (mkRoom "dev" ["s1"]) /\
   JsMap.get "s1" (users s') = Some (mkUser "bob" DEFAULT_ROOM) /\
   ~ occupancy_consistent s').
Proof.
  intros s s'. split.
  - split; [apply reachable_run, reach_init|]. split; [reflexivity|].
    split; [reflexivity|]. intros H.
    destruct (proj1 (H "s1" "")) as [u [E Hr]].
    + exists (mkRoom "" ["s1"]). split; [reflexivity | now left].
    + vm_compute in E. injection E as <-. discriminate.
  - split; [apply reachable_run, reach_init|]. split; [reflexivity|].
    split; [reflexivity|]. intros H.
    destruct (proj1 (H "s1" "dev")) as [u [E Hr]].
    + exists (mkRoom "dev" ["s1"]). split; [reflexivity | now left].
    + vm_compute in E. injection E as <-. discriminate.
Qed.

(** C1, amended. In every state reached from the initial one by events
    among which [join_chat] comes only from connections without a session
    and [join_room] never names the empty string, each handler run to its
    end, a connection-id is in a room's occupant set if and only if it has
    a session whose [currentRoom] is that room. *)
Theorem occupancy_consistent_disciplined trace :
  disciplined trace init = true ->
  occupancy_consistent (run trace init).
Proof.
  intros Hd. apply cons_occupancy. apply consistent_run; [apply consistent_init | exact Hd].
Qed.

Lemma occupancy_consistent_disciplined_witness :
  occupancy_consistent
    (run [("s1", t0, JoinChat "alice"); ("s2", t0, JoinChat "bob");
          ("s2", t0, JoinRoom "dev"); ("s1", t0, SendMessage "hello");
          ("s2", t0, JoinRoom "general"); ("s1", t0, Disconnect)] init).
Proof.
  apply (occupancy_consistent_disciplined
           [("s1", t0, JoinChat "alice"); ("s2", t0, JoinChat "bob");
            ("s2", t0, JoinRoom "dev"); ("s1", t0, SendMessage "hello");
            ("s2", t0, JoinRoom "general"); ("s1", t0, Disconnect)]).
  reflexivity.
Defined.

(** ** Registering twice *)

(** C2 on the code: a connection that already has a session sends
    [join_chat] again with an unused name.  The handler has no guard for
    it: the call goes through, the session is replaced, and the new name
    is announced to all connections. *)
Theorem join_chat_replaces_session :
  let s := run [("s1", t0, JoinChat "alice")] init in
  JsMap.get "s1" (users s) = Some (mkUser "alice" DEFAULT_ROOM) /\
  join_chat_succeeds "s1" t0 "bob" s = true /\
  users (state_after (join_chat "s1" t0 "bob") s) = [("s1", mkUser "bob" DEFAULT_ROOM)] /\
  In (Emit ToAll (user_joined "s1" "bob" DEFAULT_ROOM))
     (effects_of (join_chat "s1" t0 "bob") s).
Proof.
  repeat split. vm_compute. auto.
Qed.

(** ** Further properties of the handlers *)

(** X1. In every reachable state the default room is there, before and
    after any event, so the reads [rooms.get(...).users] of lines 83-86,
    125-130 and 223-226 never hit [undefined]: [join_chat], [join_room]
    and [disconnect] run to their end, and so do the typing handlers.
    Nothing is said here of [send_message] and [send_private_message],
    which read properties of a payload object that the model takes as
    given. *)
Theorem room_reads_never_fail s id clk ev :
  reachable s ->
  JsMap.has DEFAULT_ROOM (rooms s) = true /\
  JsMap.has DEFAULT_ROOM (rooms (state_after (handler id clk ev) s)) = true /\
  ((forall text, ev <> SendMessage text) ->
   (forall to text, ev <> SendPrivateMessage to text) ->
   threw (handler id clk ev) s = false).
Proof.
  intros Hr. apply reachable_wf in Hr.
  destruct (wf_step id clk ev s Hr) as [Hwf Ht].
  split; [apply (wf_default _ Hr)|]. split; [apply (wf_default _ Hwf)|].
  intros _ _. exact Ht.
Qed.

Lemma room_reads_never_fail_witness :
  JsMap.has DEFAULT_ROOM
    (rooms (state_after (handler "s1" t0 (JoinRoom "dev"))
              (run [("s1", t0, JoinChat "alice")] init))) = true /\
  threw (handler "s1" t0 (JoinRoom "dev")) (run [("s1", t0, JoinChat "alice")] init) = false.
Proof.
  destruct (room_reads_never_fail (run [("s1", t0, JoinChat "alice")] init) "s1" t0
              (JoinRoom "dev")) as [_ [H1 H2]].
  - apply reachable_run. constructor.
  - split; [exact H1|]. apply H2; intros; discriminate.
Defined.

Lemma names_distinct_get (m : list (SocketId * User)) :
  NoDup (names_of m) ->
  forall id1 id2 u1 u2,
    JsMap.get id1 m = Some u1 -> JsMap.get id2 m = Some u2 ->
    username u1 = username u2 -> id1 = id2.
Proof.
  unfold names_of, JsMap.values.
  induction m as [|[k v] m IH]; simpl; intros Hd id1 id2 u1 u2 H1 H2 Hn.
  - discriminate H1.
  - inversion Hd as [|x l Hx Hl]; subst.
    assert (Hin : forall id u, JsMap.get id m = Some u -> In (username u) (map username (map snd m))).
    { intros id u Hg. apply JsMapFacts.get_In in Hg.
      rewrite map_map. apply in_map_iff. exists (id, u). auto. }
    destruct (String.eqb_spec id1 k) as [->|N1];
      destruct (String.eqb_spec id2 k) as [->|N2]; auto.
    + injection H1 as <-. apply Hin in H2. rewrite <- Hn in H2. contradiction.
    + injection H2 as <-. apply Hin in H1. rewrite Hn in H1. contradiction.
    + eapply IH; eassumption.
Qed.

(** X2. In every reachable state a user name belongs to at most one
    session, and no session has the empty user name: the check of lines
    43-53 is the only way into [users], and [join_room] (line 124) and
    [disconnect] (line 235) keep names as they are. *)
Theorem reachable_names_identify_sessions s id1 id2 u1 u2 :
  reachable s ->
  JsMap.get id1 (users s) = Some u1 ->
  JsMap.get id2 (users s) = Some u2 ->
  username u1 <> "" /\ (username u1 = username u2 -> id1 = id2).
Proof.
  intros Hr H1 H2. apply reachable_wf in Hr. split.
  - intros E. apply (wf_nonempty _ Hr). rewrite <- E.
    apply name_taken_In. exact (name_taken_session _ _ id1 u1 H1 eq_refl).
  - intros E. exact (names_distinct_get _ (wf_distinct _ Hr) _ _ _ _ H1 H2 E).
Qed.

Lemma reachable_names_identify_sessions_witness :
  username (mkUser "alice" DEFAULT_ROOM) <> "".
Proof.
  apply (reachable_names_identify_sessions
           (run [("s1", t0, JoinChat "alice"); ("s2", t0, JoinChat "bob")] init)
           "s1" "s2" (mkUser "alice" DEFAULT_ROOM) (mkUser "bob" DEFAULT_ROOM)).
  - apply reachable_run. constructor.
  - reflexivity.
  - reflexivity.
Defined.

Lemma keys_alter {V} (f : V -> V) k (m : list (string * V)) :
  JsMap.keys (JsMap.alter f k m) = JsMap.keys m.
Proof.
  induction m as [|[k' v'] m IH]; simpl; auto.
  destruct (k =? k'); simpl; [reflexivity | f_equal; exact IH].
Qed.

Lemma keys_set_absent {V} k (v : V) (m : list (string * V)) :
  JsMap.has k m = false -> JsMap.keys (JsMap.set k v m) = JsMap.keys m ++ [k].
Proof.
  unfold JsMap.has. induction m as [|[k' v'] m IH]; simpl; auto.
  destruct (k =? k'); [discriminate|]. intros H. simpl. f_equal. now apply IH.
Qed.

Lemma has_In_keys {V} k (m : list (string * V)) :
  JsMap.has k m = true <-> In k (JsMap.keys m).
Proof.
  unfold JsMap.has. induction m as [|[k' v'] m IH]; simpl.
  - split; [discriminate | intros []].
  - destruct (String.eqb_spec k k') as [->|Hne].
    + split; auto.
    + rewrite IH. split; [auto | intros [E|H]; [congruence | exact H]].
Qed.

Lemma rooms_keys_step s id clk ev :
  exists new,
    JsMap.keys (rooms (state_after (handler id clk ev) s)) = JsMap.keys (rooms s) ++ new /\
    (new = [] \/
     exists r, ev = JoinRoom r /\ new = [r] /\ JsMap.has r (rooms s) = false).
Proof.
  unfold state_after. destruct ev as [name|r|text|to text|r|r|]; simpl.
  - exists []. rewrite app_nil_r. split; [|now left].
    destruct (String.eqb_spec name "") as [->|Hn].
    { now rewrite join_chat_empty. }
    destruct (name_taken name s) eqn:Ht.
    { now rewrite join_chat_taken by assumption. }
    destruct (JsMap.get DEFAULT_ROOM (rooms s)) as [rm|] eqn:Hrm.
    + rewrite (join_chat_fresh id clk name s rm) by assumption. simpl.
      apply keys_alter.
    + now rewrite join_chat_fresh_no_room by assumption.
  - destruct (JsMap.get id (users s)) as [user|] eqn:Hu.
    2:{ exists []. rewrite app_nil_r, join_room_unregistered by assumption. auto. }
    rewrite (join_room_from id clk r s user _ Hu eq_refl). simpl.
    rewrite keys_alter.
    set (s1 := if currentRoom user =? "" then s else left_room id (currentRoom user) s).
    assert (Hk : JsMap.keys (rooms s1) = JsMap.keys (rooms s)).
    { unfold s1. destruct (currentRoom user =? ""); simpl; [reflexivity | apply keys_alter]. }
    assert (Hh : JsMap.has r (rooms s1) = JsMap.has r (rooms s)).
    { unfold s1. destruct (currentRoom user =? ""); simpl;
        [reflexivity | apply JsMapFacts.has_alter]. }
    unfold ensured_room. destruct (JsMap.has r (rooms s1)) eqn:E.
    + exists []. rewrite app_nil_r. auto.
    + exists [r]. simpl. rewrite keys_set_absent, Hk by assumption.
      split; [reflexivity|]. right. exists r. rewrite <- Hh. auto.
  - exists []. rewrite app_nil_r. split; [|now left].
    destruct (JsMap.get id (users s)) as [user|] eqn:Hu.
    + now rewrite (send_message_from id clk text s user Hu).
    + now rewrite send_message_unregistered by assumption.
  - exists []. rewrite app_nil_r. split; [|now left].
    destruct (JsMap.get id (users s)) as [user|] eqn:Hu.
    + destruct (JsMap.get to (users s)) as [ru|] eqn:Hr.
      * now rewrite (send_private_online id clk to text s user ru Hu Hr).
      * now rewrite (send_private_offline id clk to text s user Hu Hr).
    + now rewrite send_private_unregistered by assumption.
  - exists []. rewrite app_nil_r. unfold typing_start. rewrite typing_result. auto.
  - exists []. rewrite app_nil_r. unfold typing_stop. rewrite typing_result. auto.
  - exists []. rewrite app_nil_r. split; [|now left].
    destruct (JsMap.get id (users s)) as [user|] eqn:Hu.
    + rewrite (disconnect_from id clk s user _ Hu eq_refl). simpl.
      destruct (leaves_on_disconnect user s); simpl; [apply keys_alter | reflexivity].
    + now rewrite disconnect_unregistered by assumption.
Qed.

(** X3. Rooms are never removed and never reordered: whatever events
    arrive, from whatever state, the room ids are afterwards the room ids
    of before followed by new ones, each of them named by a [join_room] of
    the trace (lines 118-121 hold the only [rooms.set]); so a room that
    exists keeps existing. *)
Theorem rooms_append_only trace :
  forall s,
    exists new,
      JsMap.keys (rooms (run trace s)) = JsMap.keys (rooms s) ++ new /\
      Forall (fun r => exists id clk, In (id, clk, JoinRoom r) trace) new /\
      forall r, JsMap.has r (rooms s) = true -> JsMap.has r (rooms (run trace s)) = true.
Proof.
  induction trace as [|[[id clk] ev] rest IH]; intros s; simpl.
  - exists []. rewrite app_nil_r. auto.
  - destruct (rooms_keys_step s id clk ev) as [new1 [E1 H1]].
    destruct (IH (state_after (handler id clk ev) s)) as [new2 [E2 [F2 _]]].
    exists (new1 ++ new2). rewrite E2, E1, app_assoc.
    split; [reflexivity|]. split.
    + apply Forall_app. split.
      * destruct H1 as [->|[r [-> [-> _]]]]; constructor; [|constructor].
        exists id, clk. now left.
      * eapply Forall_impl; [|exact F2]. simpl.
        intros r [id' [clk' Hin]]. exists id', clk'. now right.
    + intros r Hr. apply has_In_keys. apply has_In_keys in Hr.
      fold (run rest (state_after (handler id clk ev) s)).
      rewrite E2, E1. apply in_or_app. left. apply in_or_app. now left.
Qed.

(** X4. Sending a message, privately or to the room, and typing
    notifications (lines 146-213) only emit: whatever the state, the
    message text, the receiver and the room label, [users] and [rooms]
    stay as they are and no transport subscription is changed. *)
Theorem messaging_is_read_only s id clk ev text to r :
  ev = SendMessage text \/ ev = SendPrivateMessage to text \/
  ev = TypingStart r \/ ev = TypingStop r ->
  state_after (handler id clk ev) s = s /\
  forall e, In e (effects_of (handler id clk ev) s) -> exists t p, e = Emit t p.
Proof.
  unfold state_after, effects_of.
  intros [->|[->|[->| ->]]]; simpl.
  - destruct (JsMap.get id (users s)) as [user|] eqn:Hu.
    + rewrite (send_message_from id clk text s user Hu). simpl.
      repeat split. intros e [<-|[]]. eauto.
    + rewrite send_message_unregistered by assumption. simpl.
      repeat split. intros e [<-|[]]. eauto.
  - destruct (JsMap.get id (users s)) as [user|] eqn:Hu.
    + destruct (JsMap.get to (users s)) as [ru|] eqn:Hr.
      * rewrite (send_private_online id clk to text s user ru Hu Hr). simpl.
        repeat split. intros e [<-|[<-|[]]]; eauto.
      * rewrite (send_private_offline id clk to text s user Hu Hr). simpl.
        repeat split. intros e [<-|[]]. eauto.
    + rewrite send_private_unregistered by assumption. simpl.
      repeat split. intros e [<-|[]]. eauto.
  - unfold typing_start. rewrite typing_result. simpl. repeat split.
    destruct (JsMap.get id (users s)); intros e; simpl; [intros [<-|[]]; eauto | intros []].
  - unfold typing_stop. rewrite typing_result. simpl. repeat split.
    destruct (JsMap.get id (users s)); intros e; simpl; [intros [<-|[]]; eauto | intros []].
Qed.

Lemma messaging_is_read_only_witness :
  state_after (handler "s1" t0 (SendMessage "hello")) (joined_chat "s1" "alice" init)
  = joined_chat "s1" "alice" init.
Proof.
  apply (messaging_is_read_only (joined_chat "s1" "alice" init) "s1" t0
           (SendMessage "hello") "hello" "s2" "general").
  left. reflexivity.
Defined.

(** X5. A connection without a session can do nothing but register: any
    event of it other than [join_chat] leaves [users] and [rooms]
    untouched and emits at most the one reply ['Please set your username
    first.'] to the connection itself, so nothing reaches anybody else
    (lines 94-98, 147-151, 166-170, 199-200, 208-209, 218-219). *)
Theorem unregistered_is_isolated s id clk ev :
  JsMap.get id (users s) = None ->
  (forall name, ev <> JoinChat name) ->
  state_after (handler id clk ev) s = s /\
  threw (handler id clk ev) s = false /\
  (forall e, In e (effects_of (handler id clk ev) s) ->
             e = Emit (ToSocket id) (error_message NotRegistered)) /\
  forall subscribed e c,
    In e (effects_of (handler id clk ev) s) -> reaches subscribed e c = true -> c = id.
Proof.
  intros Hu Hev.
  assert (H : exists out, handler id clk ev s = (Some tt, s, out) /\
                          forall e, In e out -> e = Emit (ToSocket id) (error_message NotRegistered)).
  { destruct ev as [name|r|text|to text|r|r|]; simpl.
    - now destruct (Hev name).
    - rewrite join_room_unregistered by assumption. eexists. split; [reflexivity|].
      intros e [<-|[]]. reflexivity.
    - rewrite send_message_unregistered by assumption. eexists. split; [reflexivity|].
      intros e [<-|[]]. reflexivity.
    - rewrite send_private_unregistered by assumption. eexists. split; [reflexivity|].
      intros e [<-|[]]. reflexivity.
    - unfold typing_start. rewrite typing_result, Hu. eexists. split; [reflexivity|].
      intros e [].
    - unfold typing_stop. rewrite typing_result, Hu. eexists. split; [reflexivity|].
      intros e [].
    - rewrite disconnect_unregistered by assumption. eexists. split; [reflexivity|].
      intros e []. }
  destruct H as [out [E Hout]]. unfold state_after, threw, effects_of. rewrite E. simpl.
  repeat split; auto.
  intros subscribed e c Hin Hreach. apply Hout in Hin. subst e. simpl in Hreach.
  now apply String.eqb_eq in Hreach.
Qed.

Lemma unregistered_is_isolated_witness :
  state_after (handler "s9" t0 (JoinRoom "dev")) (joined_chat "s1" "alice" init)
  = joined_chat "s1" "alice" init.
Proof.
  apply (unregistered_is_isolated (joined_chat "s1" "alice" init) "s9" t0 (JoinRoom "dev")).
  - reflexivity.
  - intros name. discriminate.
Defined.

(** X6. [disconnect] (lines 217-240) removes the caller's session and
    nobody else's; it ends with the one ['user_disconnected'] broadcast
    when there was a session and does nothing at all, emitting nothing,
    when there was none; so a second [disconnect] is without effect. *)
Theorem disconnect_removes_session s id clk clk' :
  let s' := state_after (disconnect id clk) s in
  JsMap.get id (users s') = None /\
  (forall other, other <> id -> JsMap.get other (users s') = JsMap.get other (users s)) /\
  disconnect id clk' s' = (Some tt, s', []) /\
  match JsMap.get id (users s) with
  | Some user =>
      exists before,
        effects_of (disconnect id clk) s = before ++ [Emit ToAll (user_disconnected id)] /\
        forall e, In e before -> e <> Emit ToAll (user_disconnected id)
  | None => disconnect id clk s = (Some tt, s, [])
  end.
Proof.
  intros s'.
  assert (Hs' : users s' = if JsMap.has id (users s) then JsMap.delete id (users s) else users s).
  { unfold s', state_after, JsMap.has. destruct (JsMap.get id (users s)) as [user|] eqn:Hu.
    - now rewrite (disconnect_from id clk s user _ Hu eq_refl).
    - now rewrite disconnect_unregistered by assumption. }
  assert (Hnone : JsMap.get id (users s') = None).
  { rewrite Hs'. unfold JsMap.has. destruct (JsMap.get id (users s)) eqn:Hu.
    - apply JsMapFacts.get_delete_same.
    - exact Hu. }
  split; [exact Hnone|]. split; [|split].
  - intros other Hne. rewrite Hs'. destruct (JsMap.has id (users s)); [|reflexivity].
    now apply JsMapFacts.get_delete_other.
  - now apply disconnect_unregistered.
  - destruct (JsMap.get id (users s)) as [user|] eqn:Hu.
    + unfold effects_of. rewrite (disconnect_from id clk s user _ Hu eq_refl). simpl.
      eexists. split; [reflexivity|].
      intros e Hin. destruct (leaves_on_disconnect user s); simpl in Hin.
      * destruct Hin as [<-|[<-|[]]]; discriminate.
      * destruct Hin.
    + now apply disconnect_unregistered.
Qed.

(** X7. After [join_room r] a connection's room messages go to room [r]:
    [send_message] addresses the room it reads from the session, which
    line 124 has just set (lines 124 and 153-160). *)
Theorem join_room_then_send_message s id clk clk' r text user :
  JsMap.get id (users s) = Some user ->
  effects_of (send_message id clk' text) (state_after (join_room id clk r) s) =
    [Emit (ToRoom r)
       (receive_message (mkMessage (username user) text (clk' 0) (Some r) None None))].
Proof.
  intros Hu. unfold state_after at 1.
  rewrite (join_room_from id clk r s user _ Hu eq_refl). simpl.
  unfold effects_of.
  rewrite (send_message_from id clk' text _ (mkUser (username user) r)).
  - reflexivity.
  - unfold entered_room. simpl. rewrite JsMapFacts.get_alter_same, users_ensured_room.
    destruct (currentRoom user =? ""); simpl; now rewrite Hu.
Qed.

Lemma join_room_then_send_message_witness :
  effects_of (send_message "s1" t0 "hello")
    (state_after (join_room "s1" t0 "dev") (joined_chat "s1" "alice" init)) =
    [Emit (ToRoom "dev")
       (receive_message (mkMessage "alice" "hello" "t" (Some "dev") None None))].
Proof.
  apply (join_room_then_send_message (joined_chat "s1" "alice" init) "s1" t0 t0 "dev"
           "hello" (mkUser "alice" DEFAULT_ROOM)).
  reflexivity.
Defined.

(** X8. [join_room] announces the room list exactly when it has just
    created the room, and the list it announces is the old one with the
    new room last (lines 118-121). *)
Theorem available_rooms_only_for_new_room s id clk r user l :
  JsMap.get id (users s) = Some user ->
  In (Emit ToAll (available_rooms l)) (effects_of (join_room id clk r) s) <->
  JsMap.has r (rooms s) = false /\ l = JsMap.keys (rooms s) ++ [r].
Proof.
  intros Hu. unfold effects_of.
  rewrite (join_room_from id clk r s user _ Hu eq_refl). unfold snd.
  set (s1 := if currentRoom user =? "" then s else left_room id (currentRoom user) s).
  assert (Hk : JsMap.keys (rooms s1) = JsMap.keys (rooms s)).
  { unfold s1. destruct (currentRoom user =? ""); simpl; [reflexivity | apply keys_alter]. }
  assert (Hh : JsMap.has r (rooms s1) = JsMap.has r (rooms s)).
  { unfold s1. destruct (currentRoom user =? ""); simpl;
      [reflexivity | apply JsMapFacts.has_alter]. }
  rewrite !in_app_iff. unfold create_effects, ensured_room. rewrite Hh.
  split.
  - intros [H|[H|H]].
    + destruct (currentRoom user =? ""); simpl in H; [destruct H|].
      destruct H as [H|[H|[H|[]]]]; discriminate.
    + destruct (JsMap.has r (rooms s)) eqn:E; simpl in H; [destruct H|].
      destruct H as [H|[]]. injection H as <-.
      rewrite keys_set_absent, Hk by (now rewrite Hh). auto.
    + simpl in H. destruct H as [H|[H|[H|[H|[]]]]]; discriminate.
  - intros [E ->]. right. left. rewrite E. simpl. left.
    rewrite keys_set_absent, Hk by (now rewrite Hh). reflexivity.
Qed.

Lemma available_rooms_only_for_new_room_witness :
  In (Emit ToAll (available_rooms ["general"; "dev"]))
     (effects_of (join_room "s1" t0 "dev") (joined_chat "s1" "alice" init)).
Proof.
  apply (available_rooms_only_for_new_room (joined_chat "s1" "alice" init) "s1" t0 "dev"
           (mkUser "alice" DEFAULT_ROOM) ["general"; "dev"]).
  - reflexivity.
  - split; reflexivity.
Defined.

Lemma join_room_keeps_keys s id clk r :
  JsMap.keys (users (state_after (join_room id clk r) s)) = JsMap.keys (users s).
Proof.
  unfold state_after. destruct (JsMap.get id (users s)) as [user|] eqn:Hu.
  - rewrite (join_room_from id clk r s user _ Hu eq_refl). simpl.
    rewrite keys_alter, users_ensured_room. now destruct (currentRoom user =? "").
  - now rewrite join_room_unregistered by assumption.
Qed.

(** X9. [join_room] changes one thing in [users]: the caller's
    [currentRoom] (line 124).  Every other session, every user name and
    the order of the sessions stay as they were, and without a session the
    stores are untouched. *)
Theorem join_room_touches_only_caller s id clk r :
  let s' := state_after (join_room id clk r) s in
  (forall other, other <> id -> JsMap.get other (users s') = JsMap.get other (users s)) /\
  user_names s' = user_names s /\
  JsMap.keys (users s') = JsMap.keys (users s) /\
  match JsMap.get id (users s) with
  | Some user => JsMap.get id (users s') = Some (mkUser (username user) r)
  | None => s' = s
  end.
Proof.
  intros s'. unfold s', state_after.
  destruct (JsMap.get id (users s)) as [user|] eqn:Hu.
  2:{ rewrite join_room_unregistered by assumption. simpl. auto. }
  rewrite (join_room_from id clk r s user _ Hu eq_refl). simpl.
  set (s1 := if currentRoom user =? "" then s else left_room id (currentRoom user) s).
  assert (Hus : users (ensured_room r s1) = users s).
  { rewrite users_ensured_room. unfold s1. now destruct (currentRoom user =? ""). }
  unfold user_names, entered_room. simpl. rewrite Hus.
  split; [|split; [|split]].
  - intros other Hne. now apply JsMapFacts.get_alter_other.
  - apply names_alter_currentRoom.
  - apply keys_alter.
  - rewrite JsMapFacts.get_alter_same, Hu. reflexivity.
Qed.

Lemma usernames_of_In us ids n :
  In n (usernames_of us ids) <->
  n <> "" /\ exists id u, In id ids /\ JsMap.get id us = Some u /\ username u = n.
Proof.
  unfold usernames_of. rewrite filter_In, in_flat_map. split.
  - intros [[id [Hin Hn]] Hne]. split.
    + intros ->. discriminate.
    + destruct (JsMap.get id us) as [u|] eqn:E; [|destruct Hn].
      destruct Hn as [<-|[]]. eauto.
  - intros [Hne [id [u [Hin [Hg <-]]]]]. split.
    + exists id. rewrite Hg. split; [assumption | now left].
    + destruct (String.eqb_spec (username u) ""); [contradiction | reflexivity].
Qed.

Lemma occupant_names_In s r n :
  In n (occupant_names s r) ->
  n <> "" /\
  exists id u rm, JsMap.get r (rooms s) = Some rm /\ In id (room_users rm) /\
                  JsMap.get id (users s) = Some u /\ username u = n.
Proof.
  unfold occupant_names. intros H. apply usernames_of_In in H as [Hne [id [u [Hin [Hg Hn]]]]].
  split; [assumption|].
  destruct (JsMap.get r (rooms s)) as [rm|]; [|destruct Hin].
  exists id, u, rm. auto.
Qed.

(** X10. Every name a handler sends in a ['room_users_update'] is the
    non-empty user name of a session that exists when the handler has
    finished: ids without a session and falsy names are filtered out by
    [.map(id => users.get(id)?.username).filter(Boolean)], and the leaving
    connection is taken out of the set before the list is built (lines
    83-87, 103-108, 125-131, 223-227). *)
Theorem room_users_update_lists_sessions s id clk ev t r names n :
  In (Emit t (room_users_update r names)) (effects_of (handler id clk ev) s) ->
  In n names ->
  n <> "" /\
  exists other u,
    JsMap.get other (users (state_after (handler id clk ev) s)) = Some u /\
    username u = n.
Proof.
  unfold effects_of, state_after.
  destruct ev as [name|r0|text|to text|r0|r0|]; simpl.
  - destruct (String.eqb_spec name "") as [->|Hn].
    { rewrite join_chat_empty. simpl. intros [H|[]]. discriminate. }
    destruct (name_taken name s) eqn:Ht.
    { rewrite join_chat_taken by assumption. simpl. intros [H|[]]. discriminate. }
    destruct (JsMap.get DEFAULT_ROOM (rooms s)) as [rm|] eqn:Hrm.
    + rewrite (join_chat_fresh id clk name s rm) by assumption. unfold snd, fst.
      intros H Hin. apply in_app_or in H as [H|H].
      * unfold join_chat_effects in H. simpl in H.
        destruct H as [H|[H|[H|[H|[H|[]]]]]]; discriminate.
      * destruct H as [H|[]]. injection H as _ _ <-.
        apply occupant_names_In in Hin as [Hne [o [u [rm' [_ [_ [Hg Hu]]]]]]]. eauto.
    + rewrite join_chat_fresh_no_room by assumption. unfold snd.
      unfold join_chat_effects. simpl.
      intros [H|[H|[H|[H|[H|[]]]]]]; discriminate.
  - destruct (JsMap.get id (users s)) as [user|] eqn:Hu.
    2:{ rewrite join_room_unregistered by assumption. simpl. intros [H|[]]. discriminate. }
    rewrite (join_room_from id clk r0 s user _ Hu eq_refl). unfold snd, fst.
    set (s1 := if currentRoom user =? "" then s else left_room id (currentRoom user) s).
    assert (Hus : users (ensured_room r0 s1) = users s).
    { rewrite users_ensured_room. unfold s1. now destruct (currentRoom user =? ""). }
    assert (Hus1 : users s1 = users s).
    { unfold s1. now destruct (currentRoom user =? ""). }
    intros H Hin. rewrite !in_app_iff in H. destruct H as [H|[H|H]].
    + destruct (currentRoom user =? ""); [destruct H|]. simpl in H.
      destruct H as [H|[H|[H|[]]]]; try discriminate. injection H as _ _ <-.
      apply occupant_names_In in Hin as [Hne [o [u [rm' [_ [_ [Hg Hnu]]]]]]].
      split; [assumption|]. rewrite Hus1 in Hg.
      unfold entered_room. simpl. rewrite Hus.
      destruct (String.eqb_spec o id) as [->|Hne'].
      * exists id, (set_currentRoom r0 u). rewrite JsMapFacts.get_alter_same, Hg. auto.
      * exists o, u. rewrite JsMapFacts.get_alter_other by assumption. auto.
    + unfold create_effects in H. destruct (JsMap.has r0 (rooms s1)); simpl in H;
        [destruct H | destruct H as [H|[]]; discriminate].
    + simpl in H. destruct H as [H|[H|[H|[H|[]]]]]; try discriminate.
      injection H as _ _ <-.
      apply occupant_names_In in Hin as [Hne [o [u [rm' [_ [_ [Hg Hnu]]]]]]]. eauto.
  - destruct (JsMap.get id (users s)) as [user|] eqn:Hu.
    + rewrite (send_message_from id clk text s user Hu). simpl. intros [H|[]]. discriminate.
    + rewrite send_message_unregistered by assumption. simpl. intros [H|[]]. discriminate.
  - destruct (JsMap.get id (users s)) as [user|] eqn:Hu.
    + destruct (JsMap.get to (users s)) as [ru|] eqn:Hr.
      * rewrite (send_private_online id clk to text s user ru Hu Hr). simpl.
        intros [H|[H|[]]]; discriminate.
      * rewrite (send_private_offline id clk to text s user Hu Hr). simpl.
        intros [H|[]]. discriminate.
    + rewrite send_private_unregistered by assumption. simpl. intros [H|[]]. discriminate.
  - unfold typing_start. rewrite typing_result. simpl.
    destruct (JsMap.get id (users s)); simpl; [intros [H|[]]; discriminate | intros []].
  - unfold typing_stop. rewrite typing_result. simpl.
    destruct (JsMap.get id (users s)); simpl; [intros [H|[]]; discriminate | intros []].
  - destruct (JsMap.get id (users s)) as [user|] eqn:Hu.
    2:{ rewrite disconnect_unregistered by assumption. simpl. intros []. }
    rewrite (disconnect_from id clk s user _ Hu eq_refl). unfold snd, fst.
    intros H Hin. apply in_app_or in H as [H|H].
    2:{ destruct H as [H|[]]. discriminate. }
    destruct (leaves_on_disconnect user s); [|destruct H]. simpl in H.
    destruct H as [H|[H|[]]]; try discriminate. injection H as _ _ <-.
    apply occupant_names_In in Hin as [Hne [o [u [rm' [Hrm [Ho [Hg Hnu]]]]]]].
    split; [assumption|]. simpl in *.
    rewrite JsMapFacts.get_alter_same in Hrm.
    destruct (JsMap.get (currentRoom user) (rooms s)) as [rm0|]; [|discriminate].
    simpl in Hrm. injection Hrm as <-. simpl in Ho.
    apply JsSetFacts.In_delete in Ho as [_ Hne'].
    exists o, u. rewrite JsMapFacts.get_delete_other by assumption. auto.
Qed.

Lemma room_users_update_lists_sessions_witness :
  "alice" <> "" /\
  exists other u,
    JsMap.get other (users (state_after (handler "s1" t0 (JoinChat "alice")) init)) = Some u /\
    username u = "alice".
Proof.
  apply (room_users_update_lists_sessions init "s1" t0 (JoinChat "alice")
           (ToRoom "general") "general" ["alice"] "alice").
  - unfold effects_of. simpl. right. right. right. right. right. left. reflexivity.
  - now left.
Defined.

Lemma names_delete_frees (m : list (SocketId * User)) id u :
  NoDup (names_of m) -> JsMap.get id m = Some u ->
  ~ In (username u) (names_of (JsMap.delete id m)).
Proof.
  unfold names_of, JsMap.values.
  induction m as [|[k v] m IH]; simpl; intros Hd Hg; [discriminate Hg|].
  inversion Hd as [|x l Hx Hl]; subst.
  destruct (String.eqb_spec id k) as [->|Hne]; simpl.
  - injection Hg as <-. intros Hin. apply Hx.
    now apply (names_delete_In k m).
  - intros [E|Hin].
    + apply Hx. rewrite E. apply JsMapFacts.get_In in Hg.
      rewrite map_map. apply in_map_iff. exists (id, u). auto.
    + now apply (IH Hl Hg).
Qed.

(** X11. A user name is free again once its owner has disconnected: from a
    reachable state, after [disconnect] of the connection that holds a
    name, a [join_chat] with that name by any connection goes through
    (line 235 removes the session, and line 49 searches what is left). *)
Theorem name_freed_on_disconnect s id clk u other clk' :
  reachable s ->
  JsMap.get id (users s) = Some u ->
  name_taken (username u) (state_after (disconnect id clk) s) = false /\
  join_chat_succeeds other clk' (username u) (state_after (disconnect id clk) s) = true.
Proof.
  intros Hr Hu. apply reachable_wf in Hr.
  destruct (wf_step id clk Disconnect s Hr) as [Hwf _]. simpl in Hwf.
  assert (Hne : username u <> "").
  { intros E. apply (wf_nonempty _ Hr). rewrite <- E.
    apply name_taken_In. exact (name_taken_session _ _ id u Hu eq_refl). }
  assert (Hfree : name_taken (username u) (state_after (disconnect id clk) s) = false).
  { destruct (name_taken _ _) eqn:E; [|reflexivity].
    apply name_taken_In in E. unfold state_after in E.
    rewrite (disconnect_from id clk s u _ Hu eq_refl) in E. simpl in E.
    unfold user_names in E. simpl in E.
    now apply (names_delete_frees _ _ _ (wf_distinct _ Hr) Hu) in E. }
  split; [exact Hfree|].
  now apply join_chat_fresh_succeeds.
Qed.

Lemma name_freed_on_disconnect_witness :
  join_chat_succeeds "s2" t0 "alice"
    (state_after (disconnect "s1" t0) (run [("s1", t0, JoinChat "alice")] init)) = true.
Proof.
  apply (name_freed_on_disconnect (run [("s1", t0, JoinChat "alice")] init) "s1" t0
           (mkUser "alice" DEFAULT_ROOM) "s2" t0).
  - apply reachable_run. constructor.
  - reflexivity.
Defined.

Lemma delete_set_absent {V} k (v : V) (m : list (string * V)) :
  JsMap.get k m = None -> JsMap.delete k (JsMap.set k v m) = m.
Proof.
  unfold JsMap.delete. induction m as [|[k' v'] m IH]; simpl.
  - now rewrite String.eqb_refl.
  - destruct (k =? k') eqn:E; [discriminate|]. intros H. simpl. rewrite E. simpl.
    f_equal. now apply IH.
Qed.

Lemma alter_same {V} (f : V -> V) k (m : list (string * V)) :
  (forall v, JsMap.get k m = Some v -> f v = v) -> JsMap.alter f k m = m.
Proof.
  induction m as [|[k' v'] m IH]; simpl; auto.
  destruct (k =? k'); intros H.
  - now rewrite H.
  - now rewrite IH.
Qed.

Lemma delete_add_absent x l :
  JsSet.has x l = false -> JsSet.delete x (JsSet.add x l) = l.
Proof.
  intros H. unfold JsSet.add. rewrite H. unfold JsSet.delete.
  rewrite filter_app. simpl. rewrite String.eqb_refl. simpl. rewrite app_nil_r.
  now apply JsSetFacts.delete_absent.
Qed.

(** X12. Registering and leaving again is a round trip on the stores: in a
    state reached by disciplined events, a connection without a session
    that registers under a free name and then disconnects leaves [users]
    and [rooms] exactly as they were, order included (lines 55 and 83
    against lines 223 and 235). *)
Theorem join_chat_disconnect_round_trip trace id clk clk' name :
  disciplined trace init = true ->
  JsMap.get id (users (run trace init)) = None ->
  name <> "" ->
  name_taken name (run trace init) = false ->
  state_after (disconnect id clk')
    (state_after (join_chat id clk name) (run trace init)) = run trace init.
Proof.
  intros Hd Hu Hn Ht. set (s := run trace init) in *.
  pose proof (consistent_run trace init consistent_init Hd) as Hc. fold s in Hc.
  destruct Hc as [Hocc _ Hdef].
  destruct (has_default_get s Hdef) as [rm Hrm].
  unfold state_after at 2. rewrite (join_chat_fresh id clk name s rm) by assumption.
  unfold fst, snd.
  assert (Hg : JsMap.get id (users (joined_chat id name s)) = Some (mkUser name DEFAULT_ROOM)).
  { unfold joined_chat. simpl. apply JsMapFacts.get_set_same. }
  unfold state_after. rewrite (disconnect_from id clk' _ _ _ Hg eq_refl). simpl.
  assert (Hl : leaves_on_disconnect (mkUser name DEFAULT_ROOM) (joined_chat id name s) = true).
  { unfold leaves_on_disconnect, joined_chat. simpl. now rewrite JsMapFacts.has_alter. }
  rewrite Hl. unfold left_room, joined_chat. simpl.
  rewrite delete_set_absent by assumption.
  rewrite JsMapFacts.alter_alter.
  rewrite alter_same; [now destruct s|].
  intros [nm l] Hv. unfold add_user, delete_user. simpl. f_equal.
  apply delete_add_absent.
  destruct (JsSet.has id l) eqn:E; [|reflexivity].
  apply JsSetFacts.has_In in E.
  destruct (proj1 (Hocc id DEFAULT_ROOM)) as [u [Hgu _]].
  - exists (mkRoom nm l). auto.
  - congruence.
Qed.

Lemma join_chat_disconnect_round_trip_witness :
  state_after (disconnect "s2" t0)
    (state_after (join_chat "s2" t0 "bob") (run [("s1", t0, JoinChat "alice")] init))
  = run [("s1", t0, JoinChat "alice")] init.
Proof.
  apply (join_chat_disconnect_round_trip [("s1", t0, JoinChat "alice")] "s2" t0 t0 "bob").
  - reflexivity.
  - reflexivity.
  - discriminate.
  - reflexivity.
Defined.

Lemma keys_set_present {V} k (v : V) (m : list (string * V)) :
  JsMap.has k m = true -> JsMap.keys (JsMap.set k v m) = JsMap.keys m.
Proof.
  unfold JsMap.has. induction m as [|[k' v'] m IH]; simpl; [discriminate|].
  destruct (String.eqb_spec k k') as [->|Hne]; simpl; [reflexivity|].
  intros H. f_equal. now apply IH.
Qed.

Lemma keys_delete {V} k (m : list (string * V)) :
  JsMap.keys (JsMap.delete k m) = filter (fun k' => negb (k =? k')) (JsMap.keys m).
Proof.
  unfold JsMap.delete, JsMap.keys. induction m as [|[k' v'] m IH]; simpl; auto.
  destruct (k =? k'); simpl; [exact IH | f_equal; exact IH].
Qed.

Lemma keys_set_NoDup {V} k (v : V) (m : list (string * V)) :
  NoDup (JsMap.keys m) -> NoDup (JsMap.keys (JsMap.set k v m)).
Proof.
  intros Hd. destruct (JsMap.has k m) eqn:E.
  - now rewrite keys_set_present.
  - rewrite keys_set_absent by assumption.
    apply NoDup_app; [exact Hd | repeat constructor; intros [] |].
    intros x Hx [<-|[]]. apply has_In_keys in Hx. congruence.
Qed.

(** The keys of [users] stay pairwise distinct, as the keys of a [Map] are. *)
Lemma users_keys_step s id clk ev :
  NoDup (JsMap.keys (users s)) ->
  NoDup (JsMap.keys (users (state_after (handler id clk ev) s))).
Proof.
  intros Hd. unfold state_after. destruct ev as [name|r|text|to text|r|r|]; simpl.
  - destruct (String.eqb_spec name "") as [->|Hn].
    { now rewrite join_chat_empty. }
    destruct (name_taken name s) eqn:Ht.
    { now rewrite join_chat_taken by assumption. }
    destruct (JsMap.get DEFAULT_ROOM (rooms s)) as [rm|] eqn:Hrm.
    + rewrite (join_chat_fresh id clk name s rm) by assumption. simpl.
      now apply keys_set_NoDup.
    + rewrite join_chat_fresh_no_room by assumption. simpl. now apply keys_set_NoDup.
  - pose proof (join_room_keeps_keys s id clk r) as E.
    unfold state_after in E. now rewrite E.
  - destruct (JsMap.get id (users s)) as [user|] eqn:Hu.
    + now rewrite (send_message_from id clk text s user Hu).
    + now rewrite send_message_unregistered by assumption.
  - destruct (JsMap.get id (users s)) as [user|] eqn:Hu.
    + destruct (JsMap.get to (users s)) as [ru|] eqn:Hr.
      * now rewrite (send_private_online id clk to text s user ru Hu Hr).
      * now rewrite (send_private_offline id clk to text s user Hu Hr).
    + now rewrite send_private_unregistered by assumption.
  - unfold typing_start. now rewrite typing_result.
  - unfold typing_stop. now rewrite typing_result.
  - destruct (JsMap.get id (users s)) as [user|] eqn:Hu.
    + rewrite (disconnect_from id clk s user _ Hu eq_refl). simpl.
      rewrite keys_delete. now apply NoDup_filter.
    + now rewrite disconnect_unregistered by assumption.
Qed.

Lemma reachable_users_keys s : reachable s -> NoDup (JsMap.keys (users s)).
Proof.
  induction 1 as [|s id clk ev _ IH]; [constructor | now apply users_keys_step].
Qed.

Lemma filter_none {A} (p : A -> bool) (l : list A) :
  (forall z, In z l -> p z = false) -> filter p l = [].
Proof.
  induction l as [|a l IH]; simpl; intros H; [reflexivity|].
  rewrite (H a) by now left. apply IH. intros z Hz. apply H. now right.
Qed.

Lemma filter_unique {A} (g : A -> string) (l : list A) x :
  NoDup (map g l) -> In x l -> filter (fun e => g e =? g x) l = [x].
Proof.
  induction l as [|a l IH]; simpl; intros Hd Hin; [destruct Hin|].
  inversion Hd as [|y l' Hy Hl]; subst.
  assert (Hnone : forall z, In z l -> g z <> g a).
  { intros z Hz E. apply Hy. rewrite <- E. now apply in_map. }
  destruct Hin as [->|Hin].
  - rewrite String.eqb_refl. f_equal. apply filter_none.
    intros z Hz. apply String.eqb_neq. now apply Hnone.
  - destruct (String.eqb_spec (g a) (g x)) as [E|_].
    + exfalso. apply (Hnone x Hin). now symmetry.
    + now apply IH.
Qed.

(** X13. The ['online_users'] list a successful [join_chat] sends to the
    joiner (lines 63-68) has one entry per session, and from a reachable
    state exactly one of its entries carries the joiner's connection-id
    and exactly one the joiner's name: the entry
    [(id, name, DEFAULT_ROOM)]; every other session is listed as it was. *)
Theorem online_users_lists_joiner_once s id clk name :
  reachable s ->
  name <> "" ->
  name_taken name s = false ->
  exists l,
    In (Emit (ToSocket id) (online_users l)) (effects_of (join_chat id clk name) s) /\
    (forall t l', In (Emit t (online_users l')) (effects_of (join_chat id clk name) s) ->
                  t = ToSocket id /\ l' = l) /\
    filter (fun e => fst (fst e) =? id) l = [(id, name, DEFAULT_ROOM)] /\
    filter (fun e => snd (fst e) =? name) l = [(id, name, DEFAULT_ROOM)] /\
    forall other u,
      other <> id -> JsMap.get other (users s) = Some u ->
      In (other, username u, currentRoom u) l.
Proof.
  intros Hr Hn Ht.
  pose proof (reachable_users_keys s Hr) as Hkeys. apply reachable_wf in Hr.
  destruct (has_default_get s (wf_default s Hr)) as [rm Hrm].
  pose proof (wf_joined_chat id name s Hn Ht Hr) as Hwf'.
  set (us := JsMap.set id (mkUser name DEFAULT_ROOM) (users s)).
  set (f := fun e : SocketId * User => (fst e, username (snd e), currentRoom (snd e))).
  exists (map f us). unfold effects_of.
  rewrite (join_chat_fresh id clk name s rm) by assumption. unfold snd.
  assert (Hin : In (id, name, DEFAULT_ROOM) (map f us)).
  { apply in_map_iff. exists (id, mkUser name DEFAULT_ROOM). split; [reflexivity|].
    apply JsMapFacts.get_In. apply JsMapFacts.get_set_same. }
  split; [|split; [|split; [|split]]].
  - unfold join_chat_effects. simpl. right. right. left. reflexivity.
  - intros t l' H. apply in_app_or in H as [H|H].
    + unfold join_chat_effects in H. simpl in H.
      destruct H as [H|[H|[H|[H|[H|[]]]]]]; try discriminate.
      now injection H as <- <-.
    + destruct H as [H|[]]. discriminate.
  - apply (filter_unique (fun e => fst (fst e)) (map f us) (id, name, DEFAULT_ROOM));
      [|exact Hin].
    rewrite map_map. simpl. fold (JsMap.keys us). now apply keys_set_NoDup.
  - apply (filter_unique (fun e => snd (fst e)) (map f us) (id, name, DEFAULT_ROOM));
      [|exact Hin].
    rewrite map_map. simpl.
    pose proof (wf_distinct _ Hwf') as Hd. unfold user_names, joined_chat, names_of in Hd.
    simpl in Hd. unfold JsMap.values in Hd. rewrite map_map in Hd. exact Hd.
  - intros other u Hne Hg. apply in_map_iff. exists (other, u). split; [reflexivity|].
    apply JsMapFacts.get_In. unfold us. now rewrite JsMapFacts.get_set_other.
Qed.

Lemma online_users_lists_joiner_once_witness :
  exists l,
    In (Emit (ToSocket "s2") (online_users l))
       (effects_of (join_chat "s2" t0 "bob") (run [("s1", t0, JoinChat "alice")] init)) /\
    filter (fun e => fst (fst e) =? "s2") l = [("s2", "bob", DEFAULT_ROOM)].
Proof.
  destruct (online_users_lists_joiner_once
              (run [("s1", t0, JoinChat "alice")] init) "s2" t0 "bob")
    as [l [H1 [_ [H2 _]]]].
  - apply reachable_run. constructor.
  - discriminate.
  - reflexivity.
  - exists l. split; assumption.
Defined.

(** X14. Who is on the list when a connection changes room from a
    reachable state: every ['room_users_update'] sent before the
    [socket.join] (the one to the room being left) is without the mover's
    name, and the one sent after it, to the new room, has it (lines 103-108
    against 125-131). *)
Theorem mover_listed_in_new_room_only s id clk r user :
  reachable s ->
  JsMap.get id (users s) = Some user ->
  exists before names msg,
    effects_of (join_room id clk r) s =
      before ++ [SockJoin id r; Emit (ToRoom r) (room_users_update r names);
                 Emit (ToRoom r) (receive_message msg);
                 Emit (ToSocket id) (room_changed r)] /\
    In (username user) names /\
    forall t r' names',
      In (Emit t (room_users_update r' names')) before -> ~ In (username user) names'.
Proof.
  intros Hr Hu. apply reachable_wf in Hr.
  unfold effects_of. rewrite (join_room_from id clk r s user _ Hu eq_refl). unfold snd.
  set (s1 := if currentRoom user =? "" then s else left_room id (currentRoom user) s).
  set (s3 := entered_room id r (ensured_room r s1)).
  rewrite app_assoc. unfold enter_effects. do 3 eexists. split; [reflexivity|].
  assert (Hne : username user <> "").
  { intros E. apply (wf_nonempty _ Hr). rewrite <- E.
    apply name_taken_In. exact (name_taken_session _ _ id user Hu eq_refl). }
  split.
  - unfold occupant_names. apply usernames_of_In. split; [exact Hne|].
    pose proof (ensured_room_has r s1) as Hhas. unfold JsMap.has in Hhas.
    destruct (JsMap.get r (rooms (ensured_room r s1))) as [rm|] eqn:G; [|discriminate].
    unfold s3, entered_room. simpl. rewrite JsMapFacts.get_alter_same, G. simpl.
    exists id, (mkUser (username user) r). split; [apply JsSetFacts.In_add; now left|].
    split; [|reflexivity].
    rewrite JsMapFacts.get_alter_same, users_ensured_room.
    unfold s1. destruct (currentRoom user =? ""); simpl; now rewrite Hu.
  - intros t r' names' H. apply in_app_or in H as [H|H].
    + unfold s1 in *. destruct (currentRoom user =? ""); [destruct H|]. simpl in H.
      destruct H as [H|[H|[H|[]]]]; try discriminate. injection H as _ _ <-.
      intros Hin. apply occupant_names_In in Hin as [_ [o [u [rm [Hrm [Ho [Hg Hnu]]]]]]].
      simpl in *. rewrite JsMapFacts.get_alter_same in Hrm.
      destruct (JsMap.get (currentRoom user) (rooms s)) as [rm0|]; [|discriminate].
      simpl in Hrm. injection Hrm as <-. simpl in Ho.
      apply JsSetFacts.In_delete in Ho as [_ Hne'].
      apply Hne'. exact (names_distinct_get _ (wf_distinct _ Hr) _ _ _ _ Hg Hu Hnu).
    + unfold create_effects in H. destruct (JsMap.has r (rooms s1)); simpl in H;
        [destruct H | destruct H as [H|[]]; discriminate].
Qed.

Lemma mover_listed_in_new_room_only_witness :
  exists before names msg,
    effects_of (join_room "s1" t0 "dev") (run [("s1", t0, JoinChat "alice")] init) =
      before ++ [SockJoin "s1" "dev"; Emit (ToRoom "dev") (room_users_update "dev" names);
                 Emit (ToRoom "dev") (receive_message msg);
                 Emit (ToSocket "s1") (room_changed "dev")] /\
    In "alice" names.
Proof.
  destruct (mover_listed_in_new_room_only (run [("s1", t0, JoinChat "alice")] init)
              "s1" t0 "dev" (mkUser "alice" DEFAULT_ROOM))
    as [before [names [msg [H1 [H2 _]]]]].
  - apply reachable_run. constructor.
  - reflexivity.
  - exists before, names, msg. split; assumption.
Defined.

(** X15. The handlers keep the transport's room subscriptions in step
    with the occupant sets: if, for a room label, the subscribers are the
    occupants before an event, then after its handler's [socket.join] and
    [socket.leave] calls they are the occupants again (lines 56 and 83,
    102 and 103, 123 and 125).  On [disconnect] the handler calls no
    [socket.leave], so this holds for the other connections. *)
Theorem subscriptions_follow_occupants s id clk ev tbl label c :
  JsMap.has DEFAULT_ROOM (rooms s) = true ->
  (forall c', tbl c' label = true <-> occupant (rooms s) c' label) ->
  (ev = Disconnect -> c <> id) ->
  apply_effects (effects_of (handler id clk ev) s) tbl c label = true <->
  occupant (rooms (state_after (handler id clk ev) s)) c label.
Proof.
  intros Hdef Hagree Hc. specialize (Hagree c).
  unfold effects_of, state_after, apply_effects.
  destruct ev as [name|r|text|to text|r|r|]; simpl.
  - destruct (String.eqb_spec name "") as [->|Hn].
    { rewrite join_chat_empty. exact Hagree. }
    destruct (name_taken name s) eqn:Ht.
    { rewrite join_chat_taken by assumption. exact Hagree. }
    destruct (has_default_get s Hdef) as [rm Hrm].
    rewrite (join_chat_fresh id clk name s rm) by assumption.
    unfold joined_chat, join_chat_effects. simpl.
    rewrite occupant_add by assumption. rewrite <- Hagree.
    destruct (String.eqb_spec c id); destruct (String.eqb_spec label DEFAULT_ROOM);
      simpl; intuition congruence.
  - destruct (JsMap.get id (users s)) as [user|] eqn:Hu.
    2:{ rewrite join_room_unregistered by assumption. exact Hagree. }
    rewrite (join_room_from id clk r s user _ Hu eq_refl). unfold fst, snd.
    unfold entered_room. simpl rooms.
    rewrite occupant_add by apply ensured_room_has. rewrite occupant_ensured.
    unfold create_effects, enter_effects, leave_effects.
    destruct (currentRoom user =? "");
      match goal with |- context [JsMap.has r ?m] => destruct (JsMap.has r m) end;
      simpl; rewrite ?occupant_delete, <- Hagree;
      destruct (String.eqb_spec c id); destruct (String.eqb_spec label r);
      try destruct (String.eqb_spec label (currentRoom user));
      simpl; destruct (tbl c label); intuition congruence.
  - destruct (JsMap.get id (users s)) as [user|] eqn:Hu.
    + rewrite (send_message_from id clk text s user Hu). exact Hagree.
    + rewrite send_message_unregistered by assumption. exact Hagree.
  - destruct (JsMap.get id (users s)) as [user|] eqn:Hu.
    + destruct (JsMap.get to (users s)) as [ru|] eqn:Hr.
      * rewrite (send_private_online id clk to text s user ru Hu Hr). exact Hagree.
      * rewrite (send_private_offline id clk to text s user Hu Hr). exact Hagree.
    + rewrite send_private_unregistered by assumption. exact Hagree.
  - unfold typing_start. rewrite typing_result. simpl.
    destruct (JsMap.get id (users s)); exact Hagree.
  - unfold typing_stop. rewrite typing_result. simpl.
    destruct (JsMap.get id (users s)); exact Hagree.
  - specialize (Hc eq_refl).
    destruct (JsMap.get id (users s)) as [user|] eqn:Hu.
    2:{ rewrite disconnect_unregistered by assumption. exact Hagree. }
    rewrite (disconnect_from id clk s user _ Hu eq_refl). unfold fst, snd.
    unfold leave_effects.
    destruct (leaves_on_disconnect user s); simpl; [|exact Hagree].
    rewrite occupant_delete, <- Hagree. intuition congruence.
Qed.

Lemma subscriptions_follow_occupants_witness :
  apply_effects (effects_of (handler "s1" t0 (JoinChat "alice")) init)
    (fun _ _ => false) "s1" "general" = true.
Proof.
  apply (subscriptions_follow_occupants init "s1" t0 (JoinChat "alice")
           (fun _ _ => false) "general" "s1").
  - reflexivity.
  - intros c'. split; [discriminate|].
    intros [rm [E Hin]]. injection E as <-. destruct Hin.
  - discriminate.
  - exists (mkRoom "General Chat" ["s1"]). split; [reflexivity | now left].
Defined.

(** ** Server and client together *)

(** Splits a goal about [handler id clk ev s] into the cases of the
    handlers, each with the handler's outcome written out. *)
Ltac handler_cases :=
  unfold effects_of, state_after, threw;
  match goal with
  | |- context [handler ?id ?clk ?ev ?s] =>
      destruct ev as [?name|?r|?text|?to ?text|?r|?r|]; simpl handler
  end;
  [ match goal with
    | |- context [join_chat ?id ?clk ?name ?s] =>
        destruct (String.eqb_spec name "") as [->|?Hn];
        [ rewrite join_chat_empty
        | destruct (name_taken name s) eqn:?Ht;
          [ rewrite join_chat_taken by assumption
          | destruct (JsMap.get DEFAULT_ROOM (rooms s)) as [?rm|] eqn:?Hrm;
            [ match goal with
              | H : JsMap.get DEFAULT_ROOM (rooms s) = Some ?rm |- _ =>
                  rewrite (join_chat_fresh id clk name s rm) by assumption
              end
            | rewrite join_chat_fresh_no_room by assumption ] ] ]
    end
  | match goal with
    | |- context [join_room ?id ?clk ?r ?s] =>
        destruct (JsMap.get id (users s)) as [?user|] eqn:?Hu;
        [ match goal with
          | H : JsMap.get id (users s) = Some ?u |- _ =>
              rewrite (join_room_from id clk r s u _ H eq_refl)
          end
        | rewrite join_room_unregistered by assumption ]
    end
  | match goal with
    | |- context [send_message ?id ?clk ?text ?s] =>
        destruct (JsMap.get id (users s)) as [?user|] eqn:?Hu;
        [ match goal with
          | H : JsMap.get id (users s) = Some ?u |- _ =>
              rewrite (send_message_from id clk text s u H)
          end
        | rewrite send_message_unregistered by assumption ]
    end
  | match goal with
    | |- context [send_private_message ?id ?clk ?to ?text ?s] =>
        destruct (JsMap.get id (users s)) as [?user|] eqn:?Hu;
        [ destruct (JsMap.get to (users s)) as [?ru|] eqn:?Hr;
          [ match goal with
            | H : JsMap.get id (users s) = Some ?u,
              H' : JsMap.get to (users s) = Some ?v |- _ =>
                rewrite (send_private_online id clk to text s u v H H')
            end
          | match goal with
            | H : JsMap.get id (users s) = Some ?u |- _ =>
                rewrite (send_private_offline id clk to text s u H) by assumption
            end ]
        | rewrite send_private_unregistered by assumption ]
    end
  | unfold typing_start; rewrite typing_result
  | unfold typing_stop; rewrite typing_result
  | match goal with
    | |- context [disconnect ?id ?clk ?s] =>
        destruct (JsMap.get id (users s)) as [?user|] eqn:?Hu;
        [ match goal with
          | H : JsMap.get id (users s) = Some ?u |- _ =>
              rewrite (disconnect_from id clk s u _ H eq_refl)
          end
        | rewrite disconnect_unregistered by assumption ]
    end ];
  unfold fst, snd.

(** Takes a membership in a written-out effect list apart. *)
Ltac in_effects H :=
  unfold join_chat_effects, leave_effects, create_effects, enter_effects in H;
  repeat (apply in_app_or in H as [H|H]);
  repeat match type of H with
         | In _ (if ?c then _ else _) => destruct c
         | In _ (match ?c with _ => _ end) => destruct c
         end;
  simpl in H;
  repeat match type of H with
         | _ \/ _ => destruct H as [H|H]
         | False => destruct H
         end;
  try discriminate H.

(** The only ['online_users'] a handler sends is the one of a successful
    [join_chat]: the sessions after [users.set] (lines 55 and 63-68). *)
Lemma online_users_emitted s id clk ev t l :
  In (Emit t (online_users l)) (effects_of (handler id clk ev) s) ->
  exists name,
    l = map (fun e => (fst e, username (snd e), currentRoom (snd e)))
          (JsMap.set id (mkUser name DEFAULT_ROOM) (users s)).
Proof.
  handler_cases; intros H; in_effects H; injection H as _ <-; eauto.
Qed.

(** X16. With the subscribers of the sender's room being its occupants
    and the occupant sets consistent with the sessions, a room message
    (lines 146-162) is delivered to exactly the connections whose session
    is in the sender's room, the sender included, and to nobody else. *)
Theorem room_message_reaches_the_room s id clk text user tbl c :
  occupancy_consistent s ->
  JsMap.get id (users s) = Some user ->
  (forall c', tbl c' (currentRoom user) = true <-> occupant (rooms s) c' (currentRoom user)) ->
  let m := mkMessage (username user) text (clk 0) (Some (currentRoom user)) None None in
  (session (users s) c (currentRoom user) ->
   deliveries tbl c (effects_of (send_message id clk text) s) = [receive_message m]) /\
  (~ session (users s) c (currentRoom user) ->
   deliveries tbl c (effects_of (send_message id clk text) s) = []) /\
  deliveries tbl id (effects_of (send_message id clk text) s) = [receive_message m].
Proof.
  intros Hocc Hu Hagree m. unfold effects_of.
  rewrite (send_message_from id clk text s user Hu). unfold deliveries. simpl.
  assert (Hiff : forall c', tbl c' (currentRoom user) = true <->
                            session (users s) c' (currentRoom user)).
  { intros c'. rewrite Hagree. apply Hocc. }
  split; [|split].
  - intros Hs. apply Hiff in Hs. now rewrite Hs.
  - intros Hs. destruct (tbl c (currentRoom user)) eqn:E; [|reflexivity].
    apply Hiff in E. contradiction.
  - assert (Hs : tbl id (currentRoom user) = true).
    { apply Hiff. exists user. auto. }
    now rewrite Hs.
Qed.

Lemma room_message_reaches_the_room_witness :
  deliveries (fun c r => (c =? "s1") && (r =? "general")) "s1"
    (effects_of (send_message "s1" t0 "hello") (run [("s1", t0, JoinChat "alice")] init))
  = [receive_message (mkMessage "alice" "hello" "t" (Some "general") None None)].
Proof.
  apply (room_message_reaches_the_room (run [("s1", t0, JoinChat "alice")] init)
           "s1" t0 "hello" (mkUser "alice" DEFAULT_ROOM)
           (fun c r => (c =? "s1") && (r =? "general")) "s1").
  - apply cons_occupancy. apply (consistent_run [("s1", t0, JoinChat "alice")] init).
    + apply consistent_init.
    + reflexivity.
  - reflexivity.
  - intros c'. simpl. split.
    + intros H. apply andb_prop in H as [H _]. apply String.eqb_eq in H. subst.
      exists (mkRoom "General Chat" ["s1"]). split; [reflexivity | now left].
    + intros [rm [E Hin]]. injection E as <-. destruct Hin as [<-|[]]. reflexivity.
Defined.

(** Every message a handler emits is either a private one, without a
    room, or a room-scoped one, without [isPrivate]. *)
Lemma emitted_message_shape s id clk ev t m :
  In (Emit t (receive_message m)) (effects_of (handler id clk ev) s) ->
  (isPrivate m = Some true /\ room m = None /\
   exists to text, ev = SendPrivateMessage to text) \/
  (isPrivate m = None /\ (exists r, room m = Some r) /\
   forall to text, ev <> SendPrivateMessage to text).
Proof.
  handler_cases; intros H; in_effects H; injection H as _ <-;
    solve [ left; simpl; eauto
          | right; simpl; split; [reflexivity|]; split; [eauto | intros; discriminate] ].
Qed.

(** X17. The two views of the client keep private and room messages
    apart for everything the server emits: received in the room view
    (no private chat open) a message is shown exactly when it names the
    client's current room, which a private message never does; received
    in a private chat view a room or system message is never shown
    (server lines 75-80, 109-114, 132-137, 153-160, 180-191, 228-233;
    client lines 31-33 and 181-192). *)
Theorem views_keep_private_and_room_apart s id clk ev t m captured cclk st :
  In (Emit t (receive_message m)) (effects_of (handler id clk ev) s) ->
  let st' := Client.listen captured cclk (receive_message m) st in
  match Client.privateChatTarget st with
  | None =>
      Client.getFilteredMessages st' =
        Client.getFilteredMessages st ++
        (if Client.is_string (room m) (Client.currentRoom st) then [m] else []) /\
      ((exists to text, ev = SendPrivateMessage to text) ->
       Client.getFilteredMessages st' = Client.getFilteredMessages st)
  | Some target =>
      (forall to text, ev <> SendPrivateMessage to text) ->
      Client.getFilteredMessages st' = Client.getFilteredMessages st
  end.
Proof.
  intros Hin st'. apply emitted_message_shape in Hin.
  unfold st', Client.getFilteredMessages. simpl.
  destruct (Client.privateChatTarget st) as [target|]; rewrite filter_app; simpl.
  - intros Hev. destruct Hin as [[_ [_ [to [text E]]]]|[Hp _]].
    + now destruct (Hev to text).
    + rewrite Hp. simpl. apply app_nil_r.
  - destruct Hin as [[Hp [Hr _]]|[Hp [[r Hr] Hev]]].
    + rewrite Hp, Hr. simpl. split; [reflexivity|]. intros _. apply app_nil_r.
    + rewrite Hp, Hr. simpl. rewrite andb_true_r. split; [reflexivity|].
      intros [to [text E]]. now destruct (Hev to text).
Qed.

Lemma views_keep_private_and_room_apart_witness :
  Client.getFilteredMessages
    (Client.listen [] t0
       (receive_message (mkMessage "alice" "hello" "t" (Some "general") None None))
       Client.initial)
  = [mkMessage "alice" "hello" "t" (Some "general") None None].
Proof.
  apply (views_keep_private_and_room_apart (joined_chat "s1" "alice" init) "s1" t0
           (SendMessage "hello") (ToRoom "general")
           (mkMessage "alice" "hello" "t" (Some "general") None None) [] t0 Client.initial).
  simpl. left. reflexivity.
Defined.

Lemma NoDup_map_filter {A} (g : A -> string) (p : A -> bool) (l : list A) :
  NoDup (map g l) -> NoDup (map g (filter p l)).
Proof.
  induction l as [|a l IH]; simpl; intros Hd; [constructor|].
  inversion Hd as [|x l' Hx Hl]; subst.
  destruct (p a); simpl; auto. constructor; auto.
  intros Hin. apply Hx. apply in_map_iff in Hin as [z [E Hz]].
  apply filter_In in Hz as [Hz _]. rewrite <- E. now apply in_map.
Qed.

Lemma existsb_socketId_false sid (l : list Client.OnlineUser) :
  existsb (fun u => Client.socketId_of u =? sid) l = false ->
  ~ In sid (map Client.socketId_of l).
Proof.
  intros H Hin. apply in_map_iff in Hin as [u [E Hu]].
  assert (Ht : existsb (fun u => Client.socketId_of u =? sid) l = true).
  { apply existsb_exists. exists u. split; [exact Hu|]. rewrite E. apply String.eqb_refl. }
  congruence.
Qed.

(** X18. The client's list of online users never shows a connection
    twice: whatever a handler emits from a reachable server state, the
    listeners turn a list with pairwise-distinct socket ids into one again
    (['online_users'] replaces it by the sessions, ['user_joined'] adds
    only an id that is not there, ['user_disconnected'] filters; client
    lines 39-51 and 61-62, server lines 59-68 and 236). *)
Theorem client_online_list_has_no_duplicates s id clk ev t p captured cclk st :
  reachable s ->
  In (Emit t p) (effects_of (handler id clk ev) s) ->
  NoDup (map Client.socketId_of (Client.onlineUsers st)) ->
  NoDup (map Client.socketId_of (Client.onlineUsers (Client.listen captured cclk p st))).
Proof.
  intros Hr Hin Hd. destruct p; simpl; try exact Hd.
  - destruct (existsb _ _) eqn:E; [exact Hd|].
    rewrite map_app. simpl. apply NoDup_app; [exact Hd | repeat constructor; intros [] |].
    intros x Hx [<-|[]]. now apply (existsb_socketId_false _ _ E).
  - apply online_users_emitted in Hin as [name ->].
    rewrite map_map. unfold Client.socketId_of. simpl.
    fold (JsMap.keys (JsMap.set id (mkUser name DEFAULT_ROOM) (users s))).
    apply keys_set_NoDup. now apply reachable_users_keys.
  - destruct (find _ captured); simpl; now apply NoDup_map_filter.
Qed.

Lemma client_online_list_has_no_duplicates_witness :
  NoDup (map Client.socketId_of
           (Client.onlineUsers
              (Client.listen [] t0 (user_joined "s1" "alice" DEFAULT_ROOM) Client.initial))).
Proof.
  apply (client_online_list_has_no_duplicates init "s1" t0 (JoinChat "alice") ToAll
           (user_joined "s1" "alice" DEFAULT_ROOM) [] t0 Client.initial).
  - constructor.
  - unfold effects_of. simpl. right. left. reflexivity.
  - constructor.
Defined.

Lemma deliveries_app c l1 l2 :
  forall tbl,
    deliveries tbl c (l1 ++ l2) =
    deliveries tbl c l1 ++ deliveries (apply_effects l1 tbl) c l2.
Proof.
  induction l1 as [|e l1 IH]; intros tbl; simpl; [reflexivity|].
  now rewrite IH, app_assoc.
Qed.

Lemma listen_all_app captured cclk ps qs st :
  Client.listen_all captured cclk (ps ++ qs) st =
  Client.listen_all captured cclk qs (Client.listen_all captured cclk ps st).
Proof. unfold Client.listen_all. apply fold_left_app. Qed.

(** On a rejoin of the room it is in, the mover is out of the room while
    the leave broadcasts are sent and in it again for the join broadcasts:
    it receives three events. *)
Lemma rejoin_deliveries :
  let trace := [("s1", t0, JoinChat "alice")] in
  deliveries (run_subscriptions trace init own_rooms) "s1"
    (effects_of (join_room "s1" t0 "general") (run trace init)) =
    [ room_users_update "general" ["alice"];
      receive_message (system_message "alice has joined the room." "t" "general");
      room_changed "general" ].
Proof. reflexivity. Qed.

(** X19. A change of room ends with an empty view on the mover's client:
    ['room_changed'] is the last thing [join_room] emits and it goes to
    the mover, whose listener sets the current room and clears the
    messages and the private chat, so whatever was delivered before it
    (with the subscriptions as the handler's [leave] and [join] make them
    on the way), the has-joined notice of the new room included, is not
    shown (server lines 100-139, client lines 88-93). *)
Theorem room_switch_ends_with_empty_view s id clk r user tbl captured cclk st :
  JsMap.get id (users s) = Some user ->
  let st' := Client.listen_all captured cclk
               (deliveries tbl id (effects_of (join_room id clk r) s)) st in
  Client.currentRoom st' = r /\
  Client.messages st' = [] /\
  Client.privateChatTarget st' = None /\
  Client.getFilteredMessages st' = [].
Proof.
  intros Hu st'. unfold st', effects_of.
  rewrite (join_room_from id clk r s user _ Hu eq_refl). unfold snd, enter_effects.
  match goal with
  | |- context [?a ++ ?b ++ [?e1; ?e2; ?e3; ?e4]] =>
      replace (a ++ b ++ [e1; e2; e3; e4]) with ((a ++ b ++ [e1; e2; e3]) ++ [e4])
        by (now rewrite <- !app_assoc)
  end.
  rewrite deliveries_app, listen_all_app.
  cbn [deliveries delivered]. rewrite String.eqb_refl.
  unfold Client.getFilteredMessages. simpl. auto.
Qed.

Lemma room_switch_ends_with_empty_view_witness :
  Client.messages
    (Client.listen_all [] t0
       (deliveries (run_subscriptions [("s1", t0, JoinChat "alice")] init own_rooms) "s1"
          (effects_of (join_room "s1" t0 "general") (run [("s1", t0, JoinChat "alice")] init)))
       Client.initial) = [].
Proof.
  apply (room_switch_ends_with_empty_view (run [("s1", t0, JoinChat "alice")] init)
           "s1" t0 "general" (mkUser "alice" DEFAULT_ROOM)
           (run_subscriptions [("s1", t0, JoinChat "alice")] init own_rooms)
           [] t0 Client.initial).
  reflexivity.
Defined.

(** X20. What a successful [join_chat] does to the joiner's client: the
    emissions that reach it leave the online list equal to the server's
    sessions, the room list equal to the server's rooms, and two more
    messages, the client's own has-joined-the-chat notice and then the
    server's welcome; a client showing the default room shows both
    (server lines 55-87, client lines 31-58 and 83-85). *)
Theorem joiner_sees_notice_and_welcome s id clk name tbl captured cclk st :
  reachable s ->
  name <> "" ->
  name_taken name s = false ->
  let st' := Client.listen_all captured cclk
               (deliveries tbl id (effects_of (join_chat id clk name) s)) st in
  let notice := mkMessage "System" (Client.joined_chat_text name) (cclk 0)
                  (Some DEFAULT_ROOM) None None in
  let welcome := system_message (welcome_text name) (clk 0) DEFAULT_ROOM in
  Client.messages st' = Client.messages st ++ [notice; welcome] /\
  Client.onlineUsers st' =
    map (fun e => (fst e, username (snd e), currentRoom (snd e)))
      (users (state_after (join_chat id clk name) s)) /\
  Client.availableRooms st' = JsMap.keys (rooms s) /\
  (Client.privateChatTarget st = None -> Client.currentRoom st = DEFAULT_ROOM ->
   Client.getFilteredMessages st' = Client.getFilteredMessages st ++ [notice; welcome]).
Proof.
  intros Hr Hn Ht st' notice welcome. apply reachable_wf in Hr.
  destruct (has_default_get s (wf_default s Hr)) as [rm Hrm].
  unfold st', effects_of, state_after.
  rewrite (join_chat_fresh id clk name s rm) by assumption. unfold fst, snd.
  unfold join_chat_effects, Client.listen_all. simpl.
  rewrite String.eqb_refl. simpl.
  (split; [now rewrite <- app_assoc|]); (split; [reflexivity|]);
    (split; [reflexivity|]);
    intros Hp Hc; unfold Client.getFilteredMessages; simpl; rewrite Hp, Hc;
    rewrite <- app_assoc, filter_app; reflexivity.
Qed.

Lemma joiner_sees_notice_and_welcome_witness :
  Client.messages
    (Client.listen_all [] t0
       (deliveries (fun _ _ => true) "s1" (effects_of (join_chat "s1" t0 "alice") init))
       Client.initial)
  = [mkMessage "System" "alice has joined the chat." "t" (Some "general") None None;
     mkMessage "System" "Welcome, alice! You are in the 'general' room." "t"
       (Some "general") None None].
Proof.
  assert (Hne : "alice" <> "") by discriminate.
  exact (proj1 (joiner_sees_notice_and_welcome init "s1" t0 "alice" (fun _ _ => true) [] t0
                  Client.initial reach_init Hne eq_refl)).
Defined.

Lemma session_room_step s id clk ev :
  wf s ->
  (forall c u, JsMap.get c (users s) = Some u -> JsMap.has (currentRoom u) (rooms s) = true) ->
  forall c u,
    JsMap.get c (users (state_after (handler id clk ev) s)) = Some u ->
    JsMap.has (currentRoom u) (rooms (state_after (handler id clk ev) s)) = true.
Proof.
  intros Hwf HI. pose proof (wf_default _ Hwf) as Hdef. revert HI.
  handler_cases; intros HI c u; simpl; try apply HI.
  - destruct (String.eqb_spec c id) as [->|Hne].
    + rewrite JsMapFacts.get_set_same. intros E. injection E as <-. simpl.
      now rewrite JsMapFacts.has_alter.
    + rewrite JsMapFacts.get_set_other, JsMapFacts.has_alter by assumption. apply HI.
  - unfold JsMap.has in Hdef. rewrite Hrm in Hdef. discriminate.
  - rewrite JsMapFacts.has_alter, users_ensured_room.
    match goal with
    | |- context [ensured_room r ?x] => set (s1 := x)
    end.
    assert (Hus : users s1 = users s) by (unfold s1; now destruct (currentRoom user =? "")).
    assert (Hhas : forall k, JsMap.has k (rooms s) = true -> JsMap.has k (rooms s1) = true).
    { intros k Hk. unfold s1. destruct (currentRoom user =? ""); simpl; [exact Hk|].
      now rewrite JsMapFacts.has_alter. }
    rewrite Hus. destruct (String.eqb_spec c id) as [->|Hne].
    + rewrite JsMapFacts.get_alter_same, Hu. simpl. intros E. injection E as <-. simpl.
      apply ensured_room_has.
    + rewrite JsMapFacts.get_alter_other by assumption. intros Hg.
      apply has_ensured_room, Hhas. eapply HI; eassumption.
  - destruct (String.eqb_spec c id) as [->|Hne].
    + rewrite JsMapFacts.get_delete_same. discriminate.
    + rewrite JsMapFacts.get_delete_other by assumption. intros Hg.
      destruct (leaves_on_disconnect user s); simpl.
      * rewrite JsMapFacts.has_alter. eapply HI; eassumption.
      * eapply HI; eassumption.
Qed.

(** X21. In every reachable state the [currentRoom] of every session
    names a room that exists: [join_chat] puts sessions into the default
    room, [join_room] creates the room before it moves the session, and
    no room is ever deleted (lines 33, 55, 118-125). *)
Theorem session_room_exists s c u :
  reachable s ->
  JsMap.get c (users s) = Some u ->
  JsMap.has (currentRoom u) (rooms s) = true.
Proof.
  intros Hr. revert c u. induction Hr as [|s id clk ev Hr IH].
  - intros c u H. discriminate H.
  - apply session_room_step; [now apply reachable_wf | exact IH].
Qed.

Lemma session_room_exists_witness :
  JsMap.has "dev"
    (rooms (run [("s1", t0, JoinChat "alice"); ("s1", t0, JoinRoom "dev")] init)) = true.
Proof.
  apply (session_room_exists
           (run [("s1", t0, JoinChat "alice"); ("s1", t0, JoinRoom "dev")] init)
           "s1" (mkUser "alice" "dev")).
  - apply reachable_run. constructor.
  - reflexivity.
Defined.
